(** * web_scraper.py: the sitemap reader, the page extractor and the persister

    A shallow embedding of [scripts/web_scraper.py] (class [WebScraper]) and
    the properties of its three methods.

    Python [str] values are lists of Unicode code points.  The network, the
    file system, standard output, the clock and the random generator are an
    explicit [world] threaded through a small state-and-exception monad; what
    the outside answers is an [env] of oracles. *)

From Stdlib Require Import Ascii String.
From stdpp Require Import gmap strings list fin_maps pretty.

Set Warnings "-register-all".
Open Scope list_scope.

(** ** Python strings *)

(** A character is its code point; a [str] is a sequence of them. *)
Definition char : Type := N.
Definition str : Type := list N.

(** A string literal of the script (all of them are ASCII). *)
Definition py (s : string) : str :=
  map N_of_ascii (list_ascii_of_string s).

Definition newline : char := 10%N.
Definition space : char := 32%N.

(** [str.isspace] on one character: the code points Python's unicode
    database lists as whitespace. *)
Definition isspace (c : char) : bool :=
  ((9 <=? c) && (c <=? 13) || (28 <=? c) && (c <=? 32)
   || (c =? 133) || (c =? 160) || (c =? 5760)
   || (8192 <=? c) && (c <=? 8202)
   || (c =? 8232) || (c =? 8233) || (c =? 8239) || (c =? 8287)
   || (c =? 12288))%N.

(** [sep.join(parts)] *)
Fixpoint join (sep : str) (parts : list str) : str :=
  match parts with
  | [] => []
  | [p] => p
  | p :: rest => p ++ sep ++ join sep rest
  end.

(** [s.split(sep)] for a separator of one character: the scan cuts at every
    occurrence; [cur] is the piece being read, most recent character first. *)
Fixpoint split_scan (sep : char) (cur : str) (s : str) : list str :=
  match s with
  | [] => [rev cur]
  | c :: s' =>
      if (c =? sep)%N then rev cur :: split_scan sep [] s'
      else split_scan sep (c :: cur) s'
  end.

Definition split (sep : char) (s : str) : list str := split_scan sep [] s.

(** [s.split()]: runs of whitespace separate the words, and no empty word is
    produced. *)
Definition flush (cur : str) : list str :=
  match cur with
  | [] => []
  | _ => [rev cur]
  end.

Fixpoint split_ws_scan (cur : str) (s : str) : list str :=
  match s with
  | [] => flush cur
  | c :: s' =>
      if isspace c then flush cur ++ split_ws_scan [] s'
      else split_ws_scan (c :: cur) s'
  end.

Definition split_ws (s : str) : list str := split_ws_scan [] s.

(** [needle in hay] *)
Fixpoint starts_with (p s : str) : bool :=
  match p, s with
  | [], _ => true
  | _ :: _, [] => false
  | a :: p', b :: s' => (a =? b)%N && starts_with p' s'
  end.

Fixpoint contains (needle hay : str) : bool :=
  starts_with needle hay ||
  match hay with
  | [] => false
  | _ :: hay' => contains needle hay'
  end.

(** ** Parsed HTML (BeautifulSoup) *)

(** What [BeautifulSoup(text, "html.parser")] builds: text nodes, nodes that
    carry no text of the page (comments, declarations) and tags with their
    lower-cased name and children. *)
Inductive node : Type :=
| NavigableString (s : str)
| Comment (s : str)
| Tag (name : string) (contents : list node).

Definition soup : Type := list node.

(** [tag.get_text()]: the text nodes below the tag, concatenated. *)
Fixpoint node_text (n : node) : str :=
  match n with
  | NavigableString s => s
  | Comment _ => []
  | Tag _ kids => flat_map node_text kids
  end.

Definition get_text (n : node) : str := node_text n.

Definition name_in (names : list string) (n : node) : bool :=
  match n with
  | Tag nm _ => bool_decide (nm ∈ names)
  | _ => false
  end.

(** [find_all(names)]: every tag below the root whose name is listed, in
    document order, tags inside a match included. *)
Fixpoint find_all_node (names : list string) (n : node) : list node :=
  match n with
  | Tag _ kids =>
      (if name_in names n then [n] else [])
        ++ flat_map (find_all_node names) kids
  | _ => []
  end.

Definition find_all (names : list string) (page : soup) : list node :=
  flat_map (find_all_node names) page.

(** ** scrape_webpage, after the fetch *)

Definition MIN_WORD_COUNT : nat := 10.

Definition relevant_tags (page : soup) : list node :=
  find_all ["h1"; "p"]%string page.

Definition filtered_text (page : soup) : str :=
  let text := join (py " ") (map get_text (relevant_tags page)) in
  let sentences := split newline text in
  let filtered_sentences :=
    filter (fun s => MIN_WORD_COUNT <= length (split_ws s)) sentences in
  join (py " ") filtered_sentences.

(** ** Parsed XML (ElementTree) *)

(** An [Element]: its tag in Clark notation, its [text] ([None] when the
    element has none) and its children. *)
Inductive Element : Type :=
| Elem (tag : string) (text : option str) (children : list Element).

Definition tag (e : Element) : string := let (t, _, _) := e in t.
Definition text (e : Element) : option str := let (_, x, _) := e in x.
Definition children (e : Element) : list Element := let (_, _, k) := e in k.

(** The elements below [e], in document order. *)
Fixpoint descendants (e : Element) : list Element :=
  match e with
  | Elem _ _ kids => flat_map (fun k => k :: descendants k) kids
  end.

(** [e.findall(".//" + t)]: every element below [e] with tag [t]. *)
Definition findall (t : string) (e : Element) : list Element :=
  filter (fun d => tag d = t) (descendants e).

(** [e.find(t)]: the first child of [e] with tag [t]. *)
Definition find (t : string) (e : Element) : option Element :=
  head (filter (fun k => tag k = t) (children e)).

(** ** The outside world *)

(** A raised exception, with what [str(e)] gives. *)
Record exn : Type := Exception { exn_class : string; exn_str : str }.

Inductive result (A : Type) : Type :=
| Ok (a : A)
| Raised (e : exn).
Arguments Ok {A} a.
Arguments Raised {A} e.

(** A response is kept as what the two parsers of the script make of its
    body: [ElementTree.fromstring(response.content)], which can raise, and
    [BeautifulSoup(response.text, "html.parser")]. *)
Record response : Type := {
  content_xml : result Element;
  text_html : soup
}.

(** What a file holds: text, the rows of a CSV table, or a saved array. *)
Inductive file : Type :=
| TextFile (s : str)
| CsvFile (rows : list (list str))
| NpyFile (a : list str).

Inductive event : Type :=
| Requested (url : str)
| Printed (line : str)
| Slept (seconds : Z)
| Wrote (path : str) (f : file)
| Partial (path : str) (f : file).

(** The answers of the outside: the [k]-th HTTP request of the run, whether
    a path can be opened for writing, and the [k]-th draw of the random
    generator. *)
Record env : Type := {
  http_get : nat -> str -> result response;
  open_error : str -> option exn;
  entropy : nat -> N
}.

Record world : Type := {
  fs : gmap str file;
  trace : list event;
  nreq : nat;
  ndraw : nat
}.

Definition log (ev : event) (w : world) : world :=
  {| fs := fs w; trace := trace w ++ [ev]; nreq := nreq w; ndraw := ndraw w |}.

(** The world once one more request, for [url], has been sent. *)
Definition requested (url : str) (w : world) : world :=
  {| fs := fs w; trace := trace w ++ [Requested url];
     nreq := S (nreq w); ndraw := ndraw w |}.

(** ** The monad of the script: state and exceptions *)

Definition M (A : Type) : Type := world -> result A * world.

Definition ret {A} (a : A) : M A := fun w => (Ok a, w).

Definition raise {A} (e : exn) : M A := fun w => (Raised e, w).

Definition bind {A B} (m : M A) (k : A -> M B) : M B :=
  fun w =>
    match m w with
    | (Ok a, w') => k a w'
    | (Raised e, w') => (Raised e, w')
    end.

(** [try: a = m  except Exception as e: h e], followed by [k a] when the
    handler was not entered (a handler that ends in [continue] leaves the
    turn of the loop with its own value). *)
Definition try_except_else {A B} (m : M A) (h : exn -> M B) (k : A -> M B)
  : M B :=
  fun w =>
    match m w with
    | (Ok a, w') => k a w'
    | (Raised e, w') => h e w'
    end.

(** [try: m  except Exception as e: h e] *)
Definition try_except {A} (m : M A) (h : exn -> M A) : M A :=
  try_except_else m h ret.

Notation "'let*' x ':=' m 'in' k" := (bind m (fun x => k))
  (at level 10, x name, m at level 100, k at level 200).

(** A Python [dict] with string keys: the items in insertion order; setting
    a key that is present keeps its place. *)
Definition dict : Type := list (str * str).

Fixpoint dict_set (d : dict) (k v : str) : dict :=
  match d with
  | [] => [(k, v)]
  | (k', v') :: d' =>
      if decide (k' = k) then (k', v) :: d' else (k', v') :: dict_set d' k v
  end.

Fixpoint dict_get (d : dict) (k : str) : option str :=
  match d with
  | [] => None
  | (k', v') :: d' => if decide (k' = k) then Some v' else dict_get d' k
  end.

(** The integer of [a .. b] that the raw draw [raw] selects. *)
Definition randint_value (raw : N) (a b : Z) : Z :=
  (a + Z.of_N raw `mod` (b - a + 1))%Z.

(** The world once [f] has been written to [path]. *)
Definition written (path : str) (f : file) (w : world) : world :=
  {| fs := <[path := f]> (fs w); trace := trace w ++ [Wrote path f];
     nreq := nreq w; ndraw := ndraw w |}.

(** The world once a write to [path] has failed after the open, leaving
    [f] in the file. *)
Definition partial (path : str) (f : file) (w : world) : world :=
  {| fs := <[path := f]> (fs w); trace := trace w ++ [Partial path f];
     nreq := nreq w; ndraw := ndraw w |}.

(** ** Encoding as UTF-8 *)

(** The files are opened with [encoding="utf-8"]: the codec refuses the
    surrogate code points. *)
Definition is_surrogate (c : char) : bool :=
  ((55296 <=? c) && (c <=? 57343))%N.

Definition hex_digit (n : N) : char :=
  if (n <? 10)%N then (48 + n)%N else (87 + n)%N.

(** The four hexadecimal digits of a code point below 65536. *)
Definition hex4 (c : char) : str :=
  [hex_digit ((c / 4096) `mod` 16); hex_digit ((c / 256) `mod` 16);
   hex_digit ((c / 16) `mod` 16); hex_digit (c `mod` 16)]%N.

(** The error of the codec at position [pos], on the surrogate [c] followed
    by [more] other surrogates. *)
Definition UnicodeEncodeError (pos : nat) (c : char) (more : nat) : exn :=
  Exception "UnicodeEncodeError"
    match more with
    | 0 =>
        py "'utf-8' codec can't encode character '\u" ++ hex4 c
          ++ py "' in position " ++ py (pretty pos)
          ++ py ": surrogates not allowed"
    | _ =>
        py "'utf-8' codec can't encode characters in position "
          ++ py (pretty pos) ++ py "-" ++ py (pretty (pos + more))
          ++ py ": surrogates not allowed"
    end.

(** The number of surrogates at the head of [s]. *)
Fixpoint surrogate_run (s : str) : nat :=
  match s with
  | c :: s' => if is_surrogate c then S (surrogate_run s') else 0
  | [] => 0
  end.

Fixpoint encode_error_from (pos : nat) (s : str) : option exn :=
  match s with
  | [] => None
  | c :: s' =>
      if is_surrogate c then Some (UnicodeEncodeError pos c (surrogate_run s'))
      else encode_error_from (S pos) s'
  end.

(** What [s.encode("utf-8")] raises, if it raises: the error at the first
    surrogate of [s]. *)
Definition encode_error (s : str) : option exn := encode_error_from 0 s.

(** ** Rows of a CSV file *)

(** The line [csv.writer] makes of a row (the default dialect): fields that
    hold a comma, a double quote or a line break are put in double quotes,
    with the double quotes in them doubled. *)
Definition needs_quotes (field : str) : bool :=
  existsb (fun c => (c =? 44) || (c =? 34) || (c =? 13) || (c =? 10))%N field.

Definition csv_field (field : str) : str :=
  if needs_quotes field then
    [34%N] ++ flat_map (fun c => if (c =? 34)%N then [34%N; 34%N] else [c]) field
      ++ [34%N]
  else field.

Definition csv_line (row : list str) : str :=
  match row with
  | [[]] => [34%N; 34%N; 13%N; 10%N]
  | _ => join [44%N] (map csv_field row) ++ [13%N; 10%N]
  end.

(** [writerow] on each row in turn: the rows that reach the file, and the
    error of the first row whose line cannot be encoded, if there is one
    (the rows before it are flushed when the file is closed). *)
Fixpoint writerows (rows : list (list str)) : list (list str) * option exn :=
  match rows with
  | [] => ([], None)
  | row :: rest =>
      match encode_error (csv_line row) with
      | Some e => ([], Some e)
      | None => let (done, err) := writerows rest in (row :: done, err)
      end
  end.

Section Script.

Context (E : env).

(** [requests.get(url)] *)
Definition requests_get (url : str) : M response :=
  fun w => (http_get E (nreq w) url, requested url w).

Definition print (line : str) : M unit :=
  fun w => (Ok tt, log (Printed line) w).

Definition sleep (seconds : Z) : M unit :=
  fun w => (Ok tt, log (Slept seconds) w).

(** [random.randint(a, b)]: an integer [n] with [a <= n <= b], taken from
    the next draw of the generator. *)
Definition randint (a b : Z) : M Z :=
  fun w =>
    (Ok (randint_value (entropy E (ndraw w)) a b),
     {| fs := fs w; trace := trace w; nreq := nreq w; ndraw := S (ndraw w) |}).

(** [np.save(path, np.array(a))]: it raises what opening [path] for
    writing raises. *)
Definition np_save (path : str) (a : list str) : M unit :=
  fun w =>
    match open_error E path with
    | Some e => (Raised e, w)
    | None => (Ok tt, written path (NpyFile a) w)
    end.

(** [with open(path, "w", encoding="utf-8") as f: f.write(text)]: the open
    can raise, and leaves the file as it was; once the file is open it is
    empty, and stays so when the text cannot be encoded. *)
Definition write_text (path : str) (text : str) : M unit :=
  fun w =>
    match open_error E path with
    | Some e => (Raised e, w)
    | None =>
        match encode_error text with
        | Some e => (Raised e, partial path (TextFile []) w)
        | None => (Ok tt, written path (TextFile text) w)
        end
    end.

(** [with open(path, "w", newline="", encoding="utf-8") as f:] followed by
    one [writerow] for each of [rows]. *)
Definition write_csv (path : str) (rows : list (list str)) : M unit :=
  fun w =>
    match open_error E path with
    | Some e => (Raised e, w)
    | None =>
        match writerows rows with
        | (done, Some e) => (Raised e, partial path (CsvFile done) w)
        | (_, None) => (Ok tt, written path (CsvFile rows) w)
        end
    end.

(** *** get_urls_in_sitemap *)

Definition url_tag : string :=
  "{http://www.sitemaps.org/schemas/sitemap/0.9}url".
Definition loc_tag : string :=
  "{http://www.sitemaps.org/schemas/sitemap/0.9}loc".

Definition TypeError_not_iterable : exn :=
  Exception "TypeError" (py "argument of type 'NoneType' is not iterable").

(** The list comprehension over the [url] elements. *)
Fixpoint loc_values (urls : list Element) : result (list str) :=
  match urls with
  | [] => Ok []
  | url :: rest =>
      match find loc_tag url with
      | None => loc_values rest
      | Some loc =>
          match text loc with
          | None => Raised TypeError_not_iterable
          | Some t =>
              if contains (py "/search") t then loc_values rest
              else
                match loc_values rest with
                | Ok l => Ok (t :: l)
                | Raised e => Raised e
                end
          end
      end
  end.

Definition lift {A} (r : result A) : M A := fun w => (r, w).

Definition get_urls_in_sitemap (sitemap_url : str) : M (list str) :=
  let* response := requests_get sitemap_url in
  let* sitemap := lift (content_xml response) in
  let urls := findall url_tag sitemap in
  lift (loc_values urls).

(** *** scrape_webpage *)

Definition scrape_webpage (url : str) : M str :=
  let* response := requests_get url in
  ret (filtered_text (text_html response)).

(** *** save_to_files *)

Definition npy_path : str := py "data/url_list.npy".
Definition csv_path : str := py "data/url_to_file_map.csv".

(** [f"data/webpage_{idx}.txt"] *)
Definition webpage_file (idx : nat) : str :=
  py "data/webpage_" ++ py (pretty idx) ++ py ".txt".

Definition scrape_failed (url : str) (e : exn) : str :=
  py "Failed to scrape webpage: " ++ url ++ py ", due to: " ++ exn_str e.
Definition wrote_file (filename : str) : str :=
  py "Successfully wrote file: " ++ filename.
Definition write_failed (filename : str) (e : exn) : str :=
  py "Failed to write file: " ++ filename ++ py ", due to: " ++ exn_str e.
Definition map_failed (e : exn) : str :=
  py "Failed to write URL to file map, due to: " ++ exn_str e.

(** One turn of the [for] loop; the value is the mapping after it. *)
Definition loop_body (idx : nat) (url : str) (url_to_file_map : dict)
  : M dict :=
  try_except_else (scrape_webpage url)
    (fun e =>
       let* _ := print (scrape_failed url e) in
       ret url_to_file_map)
    (fun text =>
       let filename := webpage_file idx in
       let* map' :=
         try_except
           (let* _ := write_text filename text in
            let* _ := print (wrote_file filename) in
            ret (dict_set url_to_file_map url filename))
           (fun e =>
              let* _ := print (write_failed filename e) in
              ret url_to_file_map) in
       let* seconds := randint 3 7 in
       let* _ := sleep seconds in
       ret map').

(** [for idx, url in enumerate(urls)], entered at index [idx]. *)
Fixpoint for_enumerate (idx : nat) (urls : list str) (url_to_file_map : dict)
  : M dict :=
  match urls with
  | [] => ret url_to_file_map
  | url :: rest =>
      let* map' := loop_body idx url url_to_file_map in
      for_enumerate (S idx) rest map'
  end.

Definition csv_rows (url_to_file_map : dict) : list (list str) :=
  [py "URL"; py "Document"]
    :: map (fun item => [fst item; snd item]) url_to_file_map.

(** The last statement: the mapping goes to the CSV file. *)
Definition write_mapping (url_to_file_map : dict) : M unit :=
  try_except
    (write_csv csv_path (csv_rows url_to_file_map))
    (fun e => print (map_failed e)).

Definition save_to_files (urls : list str) : M unit :=
  let* _ := np_save npy_path urls in
  let url_to_file_map := [] in
  let* url_to_file_map := for_enumerate 0 urls url_to_file_map in
  write_mapping url_to_file_map.

End Script.

(** The world before a run: nothing printed, requested or drawn yet. *)
Definition fresh (files : gmap str file) : world :=
  {| fs := files; trace := []; nreq := 0; ndraw := 0 |}.

(** * The vocabulary of the properties *)

(** ** Words *)

(** The number of words of a string, as the number of places where a word
    begins: a character that is not whitespace, at the start or after a
    whitespace character. *)
Fixpoint word_starts (after_space : bool) (s : str) : nat :=
  match s with
  | [] => 0
  | c :: s' =>
      (if after_space && negb (isspace c) then 1 else 0)
        + word_starts (isspace c) s'
  end.

Definition word_count (s : str) : nat := word_starts true s.

(** ** The page extractor *)

(** [lines] are the lines of [text]: newline-free pieces, at least one, that
    give [text] back when put together with a newline between neighbours. *)
Definition lines_of (text : str) (lines : list str) : Prop :=
  lines ≠ [] ∧ Forall (fun l => newline ∉ l) lines
  ∧ join [newline] lines = text.

(** A page of three elements: a title, a paragraph of two lines (ten words,
    then two) and a subtitle. *)
Definition sample_page : soup :=
  [Tag "html"
     [Tag "body"
        [Tag "h1" [NavigableString (py "Title")];
         Tag "p"
           [NavigableString
              (py "one two three four five six seven eight nine ten"
                 ++ [newline] ++ py "too short")];
         Comment (py "nothing to see");
         Tag "h2" [NavigableString (py "Subtitle")]]]].

Definition sample_response : response :=
  {| content_xml :=
       Raised (Exception "ParseError" (py "not well-formed"));
     text_html := sample_page |}.

(** An outside where every request is answered by [sample_response], every
    file can be written and the generator gives 0, 1, 2, ... *)
Definition sample_env : env :=
  {| http_get := fun _ _ => Ok sample_response;
     open_error := fun _ => None;
     entropy := fun k => N.of_nat k |}.

(** *** Which elements are selected *)

(** [below n m]: the node [n] occurs somewhere under the tag [m]. *)
Inductive below : node → node → Prop :=
| below_child n name kids : n ∈ kids → below n (Tag name kids)
| below_deeper n k name kids : k ∈ kids → below n k → below n (Tag name kids).

(** The nodes of a page: its top-level nodes and everything under them. *)
Definition on_page (page : soup) (n : node) : Prop :=
  ∃ top, top ∈ page ∧ (n = top ∨ below n top).

Definition is_heading (n : node) : Prop :=
  ∃ name kids, n = Tag name kids
    ∧ name ∈ ["h1"; "h2"; "h3"; "h4"; "h5"; "h6"]%string.

Definition is_paragraph (n : node) : Prop :=
  ∃ kids, n = Tag "p" kids.

(** The reading of the selection as all headings and all paragraphs. *)
Definition selects_headings_and_paragraphs (page : soup) : Prop :=
  ∀ n, n ∈ relevant_tags page ↔ on_page page n ∧ (is_heading n ∨ is_paragraph n).

(** ** The sitemap reader *)

(** [needle] occurs in [hay]. *)
Definition substring (needle hay : str) : Prop :=
  ∃ pre post, hay = pre ++ needle ++ post.

Lemma starts_with_spec p s : starts_with p s = true ↔ ∃ post, s = p ++ post.
Proof.
  revert s. induction p as [|a p IH]; intros s; simpl.
  - split; [by exists s | done].
  - destruct s as [|b s].
    + split; [done | by intros (post & ?)].
    + rewrite andb_true_iff, N.eqb_eq, IH. split.
      * intros [-> (post & ->)]. by exists post.
      * intros (post & Heq). inversion Heq; subst. split; [done | by exists post].
Qed.

Lemma contains_spec needle hay :
  contains needle hay = true ↔ substring needle hay.
Proof.
  unfold substring. induction hay as [|c hay IH].
  - simpl. rewrite orb_false_r, starts_with_spec. split.
    + intros (post & ->). by exists [], post.
    + intros ([|? ?] & post & Heq); [by exists post | done].
  - change (contains needle (c :: hay))
      with (starts_with needle (c :: hay) || contains needle hay).
    rewrite orb_true_iff, starts_with_spec, IH. split.
    + intros [(post & ->)|(pre & post & ->)].
      * by exists [], post.
      * by exists (c :: pre), post.
    + intros ([|d pre] & post & Heq).
      * left. by exists post.
      * right. inversion Heq; subst. by exists pre, post.
Qed.

#[global] Instance substring_dec needle hay : Decision (substring needle hay).
Proof.
  destruct (contains needle hay) eqn:H.
  - left. by apply contains_spec.
  - right. intros Hs. apply contains_spec in Hs. congruence.
Defined.

(** The text of the first [loc] child of a [url] element, when it has both. *)
Definition first_loc_text (url : Element) : option str :=
  match find loc_tag url with
  | Some loc => text loc
  | None => None
  end.

(** [d] lies somewhere under [e]. *)
Inductive under : Element → Element → Prop :=
| under_child d e : d ∈ children e → under d e
| under_deeper d k e : k ∈ children e → under d k → under d e.

(** The reading of the result as the text of all the [loc] children of the
    [url] elements, less the values that contain the filter. *)
Definition loc_children (url : Element) : list Element :=
  filter (fun k => tag k = loc_tag) (children url).

Definition all_loc_values (root : Element) : list str :=
  flat_map (fun url => omap text (loc_children url)) (findall url_tag root).

Definition stated_urls (root : Element) : list str :=
  filter (fun v => ¬ substring (py "/search") v) (all_loc_values root).

Definition url_elem (kids : list Element) : Element := Elem url_tag None kids.
Definition loc_elem (t : string) : Element := Elem loc_tag (Some (py t)) [].
Definition urlset (kids : list Element) : Element :=
  Elem "{http://www.sitemaps.org/schemas/sitemap/0.9}urlset" None kids.

(** An outside that answers every request with the document [root]. *)
Definition serving (root : Element) : env :=
  {| http_get := fun _ _ => Ok {| content_xml := Ok root; text_html := [] |};
     open_error := fun _ => None;
     entropy := fun _ => 0%N |}.

Definition sitemap_xml : str := py "https://example.org/sitemap.xml".

(** Four entries: a page, a search page, an entry without [loc], a page. *)
Definition sample_sitemap : Element :=
  urlset
    [url_elem [loc_elem "https://example.org/"];
     url_elem [loc_elem "https://example.org/search?q=rocq"];
     url_elem
       [Elem "{http://www.sitemaps.org/schemas/sitemap/0.9}lastmod"
          (Some (py "2023-04-01")) []];
     url_elem [loc_elem "https://example.org/about"]].

(** One entry with two [loc] children. *)
Definition two_loc_sitemap : Element :=
  urlset
    [url_elem [loc_elem "https://example.org/a";
               loc_elem "https://example.org/b"]].

(** ** The persister *)

(** *** One turn of the loop, case by case *)

(** The world after the pause that ends a turn: one draw, one sleep. *)
Definition paused (E : env) (w : world) : world :=
  {| fs := fs w;
     trace := trace w ++ [Slept (randint_value (entropy E (ndraw w)) 3 7)];
     nreq := nreq w; ndraw := S (ndraw w) |}.

Definition after_scrape_failed (url : str) (e : exn) (w : world) : world :=
  log (Printed (scrape_failed url e)) (requested url w).

Definition after_saved (E : env) (idx : nat) (url : str) (t : str) (w : world)
  : world :=
  paused E
    (log (Printed (wrote_file (webpage_file idx)))
       (written (webpage_file idx) (TextFile t) (requested url w))).

Definition after_write_failed (E : env) (idx : nat) (url : str) (e : exn)
    (w : world) : world :=
  paused E
    (log (Printed (write_failed (webpage_file idx) e)) (requested url w)).

Definition after_encode_failed (E : env) (idx : nat) (url : str) (e : exn)
    (w : world) : world :=
  paused E
    (log (Printed (write_failed (webpage_file idx) e))
       (partial (webpage_file idx) (TextFile []) (requested url w))).

(** *** What the loop writes *)

(** The turn [i] scrapes [u], gets the text [t] and writes it to its file:
    the file can be opened and the text can be encoded. *)
Definition saved_at (E : env) (n0 : nat) (urls : list str)
    (i : nat) (u t : str) : Prop :=
  urls !! i = Some u
  ∧ (∃ r, http_get E (n0 + i) u = Ok r ∧ t = filtered_text (text_html r))
  ∧ open_error E (webpage_file i) = None
  ∧ encode_error t = None.

(** The turn [i] scrapes [u] and opens its file. *)
Definition opened_at (E : env) (n0 : nat) (urls : list str)
    (i : nat) (u : str) : Prop :=
  urls !! i = Some u
  ∧ (∃ r, http_get E (n0 + i) u = Ok r)
  ∧ open_error E (webpage_file i) = None.

(** The turn [i] scrapes [u] and opens its file, and the text cannot be
    encoded. *)
Definition spoiled_at (E : env) (n0 : nat) (urls : list str)
    (i : nat) (u : str) : Prop :=
  urls !! i = Some u
  ∧ (∃ r, http_get E (n0 + i) u = Ok r
          ∧ encode_error (filtered_text (text_html r)) ≠ None)
  ∧ open_error E (webpage_file i) = None.

Definition writes_inv (E : env) (n0 : nat) (urls : list str) (w0 : world)
    (k : nat) (w : world) : Prop :=
  ∃ evs, trace w = trace w0 ++ evs
    ∧ (∀ path f, Wrote path f ∈ evs →
         ∃ i u t, i < k ∧ saved_at E n0 urls i u t
                  ∧ path = webpage_file i ∧ f = TextFile t)
    ∧ (∀ i u t, i < k → saved_at E n0 urls i u t →
         Wrote (webpage_file i) (TextFile t) ∈ evs
         ∧ fs w !! webpage_file i = Some (TextFile t))
    ∧ (∀ i u, i < k → spoiled_at E n0 urls i u →
         fs w !! webpage_file i = Some (TextFile []))
    ∧ (∀ path, (∀ i u, i < k → opened_at E n0 urls i u →
                       path ≠ webpage_file i) →
         fs w !! path = fs w0 !! path).

(** *** The whole call *)

(** The world after the last statement, the mapping being [d]. *)
Definition finished (E : env) (d : dict) (w : world) : world :=
  match open_error E csv_path with
  | Some e => log (Printed (map_failed e)) w
  | None =>
      match writerows (csv_rows d) with
      | (done, Some e) =>
          log (Printed (map_failed e)) (partial csv_path (CsvFile done) w)
      | (_, None) => written csv_path (CsvFile (csv_rows d)) w
      end
  end.

(** Two addresses; the first is answered by a page, the second by an error. *)
Definition page_url : str := py "https://example.org/".
Definition down_url : str := py "https://example.org/down".

Definition ConnectionError : exn :=
  Exception "ConnectionError" (py "Max retries exceeded").

Definition flaky_env : env :=
  {| http_get := fun _ url =>
       if decide (url = down_url) then Raised ConnectionError
       else Ok sample_response;
     open_error := fun _ => None;
     entropy := fun k => N.of_nat k |}.

(** *** The pause *)

(** The durations of the sleeps among some events, in order. *)
Definition sleeps (evs : list event) : list Z :=
  omap (fun ev => match ev with Slept s => Some s | _ => None end) evs.

(** How many of [urls] are fetched, the first by the request number [k]. *)
Fixpoint fetched (E : env) (k : nat) (urls : list str) : nat :=
  match urls with
  | [] => 0
  | url :: rest =>
      match http_get E k url with Ok _ => 1 | Raised _ => 0 end
      + fetched E (S k) rest
  end.


Definition sleeps_inv (E : env) (n0 : nat) (urls : list str) (w0 : world)
    (k : nat) (w : world) : Prop :=
  ∃ evs, trace w = trace w0 ++ evs
    ∧ ndraw w = ndraw w0 + length (sleeps evs)
    ∧ sleeps evs
      = map (fun j => randint_value (entropy E j) 3 7)
          (seq (ndraw w0) (length (sleeps evs)))
    ∧ length (sleeps evs) = fetched E n0 (take k urls).

(** *** The mapping *)

(** After [k] turns the mapping sends each URL that was saved so far to the
    file of the last turn that saved it. *)
Definition last_saved (E : env) (n0 : nat) (urls : list str) (k : nat)
    (u f : str) : Prop :=
  ∃ i t, i < k ∧ saved_at E n0 urls i u t ∧ f = webpage_file i
         ∧ ∀ j t', i < j < k → ¬ saved_at E n0 urls j u t'.

Definition mapping_inv (E : env) (n0 : nat) (urls : list str)
    (k : nat) (d : dict) : Prop :=
  NoDup d.*1 ∧ ∀ u f, (u, f) ∈ d ↔ last_saved E n0 urls k u f.

(** The reading of the mapping file as one row for each URL of the list
    that was scraped, and for no other. *)
Definition scraped_at (E : env) (n0 : nat) (urls : list str)
    (i : nat) (u : str) : Prop :=
  urls !! i = Some u ∧ ∃ r, http_get E (n0 + i) u = Ok r.

Definition maps_every_scraped_url (E : env) (urls : list str) (w : world)
  : Prop :=
  ∃ rows,
    fs (snd (save_to_files E urls w)) !! csv_path
      = Some (CsvFile ([py "URL"; py "Document"] :: rows))
    ∧ ∀ u, (∃ f, [u; f] ∈ rows) ↔ (∃ i, scraped_at E (nreq w) urls i u).

Definition PermissionError : exn :=
  Exception "PermissionError" (py "[Errno 13] Permission denied").

(** An outside where every page is fetched and the first text file cannot
    be opened. *)
Definition readonly_env : env :=
  {| http_get := fun _ _ => Ok sample_response;
     open_error := fun path =>
       if decide (path = webpage_file 0) then Some PermissionError else None;
     entropy := fun k => N.of_nat k |}.

(** ** Further vocabulary *)

(** The addresses requested among some events, in order. *)
Definition requests (evs : list event) : list str :=
  omap (fun ev => match ev with Requested u => Some u | _ => None end) evs.

(** The sum of some durations. *)
Definition total (l : list Z) : Z := foldr Z.add 0%Z l.

(** The row that the turn [i], on the URL [u], adds to the mapping, if it
    adds one: the page is fetched, the file can be opened and the text can
    be encoded. *)
Definition saved_row (E : env) (n0 : nat) (i : nat) (u : str)
  : option (str * str) :=
  match http_get E (n0 + i) u with
  | Ok r =>
      match open_error E (webpage_file i),
            encode_error (filtered_text (text_html r)) with
      | None, None => Some (u, webpage_file i)
      | _, _ => None
      end
  | Raised _ => None
  end.

(** The rows of the positions of the list that are saved, in list order. *)
Definition rows_in_order (E : env) (n0 : nat) (urls : list str) : dict :=
  omap id (imap (saved_row E n0) urls).

Definition requests_inv (urls : list str) (w0 : world) (k : nat) (w : world)
  : Prop :=
  ∃ evs, trace w = trace w0 ++ evs ∧ requests evs = take k urls.

Definition rows_inv (E : env) (n0 : nat) (urls : list str) (k : nat)
    (d : dict) : Prop :=
  d = rows_in_order E n0 (take k urls).

(** An outside where every page is fetched and only the mapping file cannot
    be opened. *)
Definition no_csv_env : env :=
  {| http_get := fun _ _ => Ok sample_response;
     open_error := fun path =>
       if decide (path = csv_path) then Some PermissionError else None;
     entropy := fun k => N.of_nat k |}.

(** A page whose one line of ten words ends in a lone surrogate. *)
Definition surrogate_page : soup :=
  [Tag "p"
     [NavigableString
        (py "one two three four five six seven eight nine ten "
           ++ [56448%N])]].

(** An outside where every request is answered by [surrogate_page] and
    every file can be opened. *)
Definition surrogate_env : env :=
  {| http_get := fun _ _ =>
       Ok {| content_xml :=
               Raised (Exception "ParseError" (py "not well-formed"));
             text_html := surrogate_page |};
     open_error := fun _ => None;
     entropy := fun k => N.of_nat k |}.

(** An address that ends in a lone surrogate. *)
Definition odd_url : str := py "https://example.org/" ++ [55296%N].

Definition keys_inv (E : env) (n0 : nat) (urls : list str) (k : nat)
    (d : dict) : Prop :=
  ∀ i u t, i < k → saved_at E n0 urls i u t → u ∈ d.*1.

(** * Properties *)

(** ** Strings *)

Lemma join_cons (sep p : str) (q : str) (rest : list str) :
  join sep (p :: q :: rest) = p ++ sep ++ join sep (q :: rest).
Proof. reflexivity. Qed.

Lemma split_scan_nonempty sep cur s : split_scan sep cur s ≠ [].
Proof.
  revert cur. induction s as [|c s IH]; intros cur; simpl.
  - discriminate.
  - destruct (c =? sep)%N; [discriminate | apply IH].
Qed.

(** Gluing the pieces of the scan back with the separator gives the piece
    in progress followed by the rest of the string. *)
Lemma join_split_scan sep cur s :
  join [sep] (split_scan sep cur s) = rev cur ++ s.
Proof.
  revert cur. induction s as [|c s IH]; intros cur; simpl.
  - by rewrite app_nil_r.
  - destruct (N.eqb_spec c sep) as [->|Hne].
    + pose proof (split_scan_nonempty sep [] s) as Hne.
      destruct (split_scan sep [] s) as [|q rest] eqn:Hs; [done|].
      rewrite join_cons, <- Hs, IH. reflexivity.
    + rewrite IH. simpl. by rewrite <- app_assoc.
Qed.

Lemma elem_of_rev (c : char) (l : str) : c ∈ rev l ↔ c ∈ l.
Proof. rewrite !list_elem_of_In. symmetry. apply in_rev. Qed.

Lemma split_scan_free sep cur s :
  sep ∉ cur → Forall (fun piece => sep ∉ piece) (split_scan sep cur s).
Proof.
  revert cur. induction s as [|c s IH]; intros cur Hcur; simpl.
  - constructor; [|constructor]. by rewrite elem_of_rev.
  - destruct (N.eqb_spec c sep) as [->|Hne].
    + constructor; [by rewrite elem_of_rev|]. apply IH. apply not_elem_of_nil.
    + apply IH. rewrite elem_of_cons. intros [->|?]; done.
Qed.

(** The pieces of a string are determined by the string: separator-free
    pieces that glue back to the same string are the same pieces. *)
Lemma join_free_inj sep (l1 l2 : list str) :
  l1 ≠ [] → l2 ≠ [] →
  Forall (fun piece => sep ∉ piece) l1 →
  Forall (fun piece => sep ∉ piece) l2 →
  join [sep] l1 = join [sep] l2 → l1 = l2.
Proof.
  intros Hn1 Hn2 H1. revert l2 Hn2.
  induction H1 as [|p rest1 Hp Hrest1 IH]; [done|].
  intros l2 Hn2 H2 Heq. destruct H2 as [|q rest2 Hq Hrest2]; [done|].
  assert (Hhead : ∀ (a b : str) (x y : str),
             sep ∉ a → sep ∉ b → a ++ sep :: x = b ++ sep :: y →
             a = b ∧ x = y).
  { clear. induction a as [|c a IHa]; intros [|d b] x y Ha Hb E; simpl in E.
    - by inversion E.
    - inversion E; subst. exfalso. apply Hb. left.
    - inversion E; subst. exfalso. apply Ha. left.
    - inversion E; subst.
      destruct (IHa b x y) as [-> ->]; try done.
      + intros ?. apply Ha. by right.
      + intros ?. apply Hb. by right. }
  assert (Hlast : ∀ (a b : str) (y : str),
             sep ∉ a → a = b ++ sep :: y → False).
  { clear. intros a b y Ha ->. apply Ha. rewrite elem_of_app. right. left. }
  destruct rest1 as [|p' rest1], rest2 as [|q' rest2].
  - simpl in Heq. by subst.
  - exfalso. exact (Hlast p q (join [sep] (q' :: rest2)) Hp Heq).
  - exfalso.
    exact (Hlast q p (join [sep] (p' :: rest1)) Hq (eq_sym Heq)).
  - destruct (Hhead p q (join [sep] (p' :: rest1))
                (join [sep] (q' :: rest2)) Hp Hq Heq) as [-> Hrest].
    f_equal. apply IH; done.
Qed.

Lemma join_free (c : char) sep (parts : list str) :
  c ∉ sep → Forall (fun p => c ∉ p) parts → c ∉ join sep parts.
Proof.
  intros Hsep Hparts. induction Hparts as [|p rest Hp Hrest IH]; simpl.
  - apply not_elem_of_nil.
  - destruct rest as [|q rest]; [done|].
    rewrite !elem_of_app. intros [?|[?|?]]; done.
Qed.

(** *** Words *)

Lemma length_split_ws_scan cur s :
  length (split_ws_scan cur s)
  = match cur with
    | [] => word_starts true s
    | _ => 1 + word_starts false s
    end.
Proof.
  revert cur. induction s as [|c s IH]; intros cur; simpl.
  - by destruct cur.
  - destruct (isspace c) eqn:Hc; simpl.
    + rewrite length_app, IH. by destruct cur.
    + rewrite IH. destruct cur; simpl; lia.
Qed.

Lemma length_split_ws s : length (split_ws s) = word_count s.
Proof. apply (length_split_ws_scan [] s). Qed.

(** ** The page extractor *)

Lemma split_lines_of text : lines_of text (split newline text).
Proof.
  split; [apply split_scan_nonempty|]. split.
  - apply split_scan_free, not_elem_of_nil.
  - apply (join_split_scan newline [] text).
Qed.

Lemma lines_of_unique text l1 l2 :
  lines_of text l1 → lines_of text l2 → l1 = l2.
Proof.
  intros (Hn1 & Hf1 & Hj1) (Hn2 & Hf2 & Hj2).
  apply (join_free_inj newline _ _ Hn1 Hn2 Hf1 Hf2).
  exact (eq_trans Hj1 (eq_sym Hj2)).
Qed.

Lemma filter_word_count (lines : list str) :
  filter (fun s => MIN_WORD_COUNT <= length (split_ws s)) lines
  = filter (fun l => ¬ word_count l < 10) lines.
Proof.
  apply list_filter_iff. intros l. rewrite length_split_ws.
  unfold MIN_WORD_COUNT. lia.
Qed.

(** C1. When the page is fetched, [scrape_webpage] returns this text: the
    texts of the selected elements joined with single spaces, cut into its
    lines (which that text determines), the lines of fewer than 10 words
    dropped, and the remaining lines joined with single spaces. *)
Theorem scrape_webpage_returns (E : env) (url : str) (w : world)
    (resp : response) :
  http_get E (nreq w) url = Ok resp →
  let text := join [space] (map get_text (relevant_tags (text_html resp))) in
  ∃ lines : list str,
    lines_of text lines
    ∧ (∀ lines', lines_of text lines' → lines' = lines)
    ∧ scrape_webpage E url w
      = (Ok (join [space] (filter (fun l => ¬ word_count l < 10) lines)),
         requested url w).
Proof.
  intros Hget text. exists (split newline text). split; [|split].
  - apply split_lines_of.
  - intros lines' H. eapply lines_of_unique; [exact H | apply split_lines_of].
  - unfold scrape_webpage, bind, requests_get, ret. rewrite Hget.
    unfold filtered_text. by rewrite filter_word_count.
Qed.

Lemma scrape_webpage_returns_witness :
  http_get sample_env 0 (py "https://example.org/") = Ok sample_response
  ∧ fst (scrape_webpage sample_env (py "https://example.org/") (fresh ∅))
    = Ok (py "Title one two three four five six seven eight nine ten").
Proof.
  split; [reflexivity|].
  destruct (scrape_webpage_returns sample_env (py "https://example.org/")
              (fresh ∅) sample_response eq_refl) as (lines & Hl & Huniq & ->).
  rewrite <- (Huniq _ (split_lines_of _)). vm_compute. reflexivity.
Defined.

(** The returned text is free of newlines. *)
Lemma filtered_text_no_newline (page : soup) : newline ∉ filtered_text page.
Proof.
  unfold filtered_text. apply join_free.
  - change (newline ∉ [space]). rewrite elem_of_cons, elem_of_nil.
    by intros [?|[]].
  - apply Forall_forall. intros l Hl. apply list_elem_of_filter in Hl as [_ Hl].
    unfold split in Hl.
    eapply Forall_forall in Hl;
      [exact Hl | apply split_scan_free, not_elem_of_nil].
Qed.

(** *** Which elements are selected *)

Lemma node_nested_ind (P : node → Prop) :
  (∀ s, P (NavigableString s)) →
  (∀ s, P (Comment s)) →
  (∀ name kids, Forall P kids → P (Tag name kids)) →
  ∀ n, P n.
Proof.
  intros Hs Hc Ht. fix IH 1. intros [s|s|name kids].
  - apply Hs.
  - apply Hc.
  - apply Ht. induction kids as [|k kids IHk]; constructor; [apply IH | exact IHk].
Qed.

Lemma elem_of_flat_map {A B} (f : A → list B) (l : list A) (y : B) :
  y ∈ flat_map f l ↔ ∃ x, x ∈ l ∧ y ∈ f x.
Proof.
  rewrite list_elem_of_In, in_flat_map. split.
  - intros (x & Hx & Hy). exists x. by rewrite !list_elem_of_In.
  - intros (x & Hx & Hy). exists x. by rewrite <- !list_elem_of_In.
Qed.

Lemma find_all_node_spec names (n m : node) :
  m ∈ find_all_node names n
  ↔ (m = n ∨ below m n) ∧ name_in names m = true.
Proof.
  revert m. induction n as [s|s|name kids IH] using node_nested_ind; intros m.
  - simpl. rewrite elem_of_nil. split; [done|].
    intros [[->|Hb] Hn]; [done | inversion Hb].
  - simpl. rewrite elem_of_nil. split; [done|].
    intros [[->|Hb] Hn]; [done | inversion Hb].
  - rewrite Forall_forall in IH.
    change (find_all_node names (Tag name kids))
      with ((if name_in names (Tag name kids) then [Tag name kids] else [])
              ++ flat_map (find_all_node names) kids).
    rewrite elem_of_app, elem_of_flat_map. split.
    + intros [Hm|(k & Hk & Hm)].
      * destruct (name_in names (Tag name kids)) eqn:Hn.
        -- apply elem_of_cons in Hm as [->|Hm]; [by split; [left|] |].
           by apply elem_of_nil in Hm.
        -- by apply elem_of_nil in Hm.
      * apply (IH k Hk) in Hm as [[->|Hb] Hn]; split; try done; right.
        -- by apply below_child.
        -- by eapply below_deeper.
    + intros [[->|Hb] Hn].
      * left. rewrite Hn. apply elem_of_cons. by left.
      * right. inversion Hb as [? ? ? Hk|? k ? ? Hk Hbk]; subst.
        -- exists m. split; [done|]. apply IH; [done|]. split; [by left | done].
        -- exists k. split; [done|]. apply IH; [done|]. split; [by right | done].
Qed.

Lemma find_all_spec names (page : soup) (m : node) :
  m ∈ find_all names page ↔ on_page page m ∧ name_in names m = true.
Proof.
  unfold find_all, on_page. rewrite elem_of_flat_map. split.
  - intros (top & Htop & Hm). apply find_all_node_spec in Hm as [Hm Hn].
    split; [|done]. by exists top.
  - intros [(top & Htop & Hm) Hn]. exists top. split; [done|].
    by apply find_all_node_spec.
Qed.

(** C5, as stated, fails: the subtitle of [sample_page] is a heading of the
    page and is not selected. *)
Lemma h2_heading_not_selected :
  ¬ selects_headings_and_paragraphs sample_page.
Proof.
  intros H.
  pose (h2 := Tag "h2" [NavigableString (py "Subtitle")]).
  assert (Hin : h2 ∈ relevant_tags sample_page).
  { apply H. split.
    - eexists. split; [left|]. right.
      eapply below_deeper; [left|]. apply below_child.
      do 3 right. left.
    - left. exists "h2"%string, [NavigableString (py "Subtitle")].
      split; [done|]. right. left. }
  vm_compute in Hin.
  repeat (apply elem_of_cons in Hin as [Hin|Hin]; [discriminate Hin|]).
  by apply elem_of_nil in Hin.
Qed.

(** C5, amended. The elements whose text is extracted are the [h1] elements
    and the [p] elements of the page, all of them, wherever they occur. *)
Theorem relevant_tags_h1_and_p (page : soup) (n : node) :
  n ∈ relevant_tags page
  ↔ on_page page n ∧ ∃ kids, n = Tag "h1" kids ∨ n = Tag "p" kids.
Proof.
  unfold relevant_tags. rewrite find_all_spec. split.
  - intros [Hp Hn]. split; [done|]. destruct n as [s|s|name kids]; try done.
    simpl in Hn. apply bool_decide_eq_true in Hn. exists kids.
    apply elem_of_cons in Hn as [->|Hn]; [by left|].
    apply elem_of_cons in Hn as [->|Hn]; [by right|].
    by apply elem_of_nil in Hn.
  - intros [Hp (kids & [->| ->])]; split; try done.
Qed.

(** ** The sitemap reader *)

Lemma Element_nested_ind (P : Element → Prop) :
  (∀ t x kids, Forall P kids → P (Elem t x kids)) → ∀ e, P e.
Proof.
  intros H. fix IH 1. intros [t x kids]. apply H.
  induction kids as [|k kids IHk]; constructor; [apply IH | exact IHk].
Qed.

Lemma descendants_spec (e d : Element) : d ∈ descendants e ↔ under d e.
Proof.
  revert d. induction e as [t x kids IH] using Element_nested_ind; intros d.
  rewrite Forall_forall in IH.
  change (descendants (Elem t x kids))
    with (flat_map (fun k => k :: descendants k) kids).
  rewrite elem_of_flat_map. split.
  - intros (k & Hk & Hd). apply elem_of_cons in Hd as [->|Hd].
    + by apply under_child.
    + apply (under_deeper d k); [done|]. by apply IH.
  - intros Hu. inversion Hu as [? ? Hk|? k ? Hk Hd]; subst; simpl in Hk.
    + exists d. split; [done|]. apply elem_of_cons. by left.
    + exists k. split; [done|]. apply elem_of_cons. right. by apply IH.
Qed.

(** [findall] reaches every element under the root that carries the tag,
    and nothing else. *)
Lemma findall_spec t (root d : Element) :
  d ∈ findall t root ↔ under d root ∧ tag d = t.
Proof.
  unfold findall. rewrite list_elem_of_filter, descendants_spec. tauto.
Qed.

Lemma loc_values_skip (before after : list Element) (u : Element) :
  find loc_tag u = None →
  loc_values (before ++ u :: after) = loc_values (before ++ after).
Proof.
  intros Hu. induction before as [|b before IH]; simpl.
  - by rewrite Hu.
  - by rewrite IH.
Qed.

Lemma loc_values_ok (urls : list Element) :
  (∀ u loc, u ∈ urls → find loc_tag u = Some loc → text loc ≠ None) →
  loc_values urls
  = Ok (filter (fun v => ¬ substring (py "/search") v)
          (omap first_loc_text urls)).
Proof.
  induction urls as [|u urls IH]; intros Htext; [done|].
  assert (IH' := IH (fun u' loc H => Htext u' loc (list_elem_of_further _ _ _ H))).
  clear IH. simpl. unfold first_loc_text at 1.
  destruct (find loc_tag u) as [loc|] eqn:Hfind; [|done].
  destruct (text loc) as [t|] eqn:Ht.
  - destruct (contains (py "/search") t) eqn:Hc.
    + rewrite filter_cons_False; [done|].
      intros Hn. apply Hn. by apply contains_spec.
    + rewrite filter_cons_True.
      * by rewrite IH'.
      * intros Hs. apply contains_spec in Hs. congruence.
  - exfalso. eapply Htext; [left | exact Hfind | exact Ht].
Qed.

Lemma get_urls_in_sitemap_eq E sitemap_url w resp root :
  http_get E (nreq w) sitemap_url = Ok resp →
  content_xml resp = Ok root →
  get_urls_in_sitemap E sitemap_url w
  = (loc_values (findall url_tag root), requested sitemap_url w).
Proof.
  intros Hget Hxml.
  unfold get_urls_in_sitemap, bind, requests_get, lift.
  by rewrite Hget, Hxml.
Qed.

(** C2, as stated, fails: of two [loc] children of one [url] element the
    second is not returned. *)
Lemma second_loc_not_returned :
  fst (get_urls_in_sitemap (serving two_loc_sitemap) sitemap_xml (fresh ∅))
    = Ok [py "https://example.org/a"]
  ∧ stated_urls two_loc_sitemap
    = [py "https://example.org/a"; py "https://example.org/b"]
  ∧ fst (get_urls_in_sitemap (serving two_loc_sitemap) sitemap_xml (fresh ∅))
    ≠ Ok (stated_urls two_loc_sitemap).
Proof.
  split; [|split].
  - vm_compute. reflexivity.
  - vm_compute. reflexivity.
  - intros H. vm_compute in H. discriminate H.
Qed.

(** C2, amended. For a sitemap in which the first [loc] child of every
    [url] element has text, [get_urls_in_sitemap] returns, in document order,
    the text of the first [loc] child of each [url] element under the root
    that has one, less the values that contain "/search". *)
Theorem get_urls_in_sitemap_returns (E : env) (sitemap_url : str) (w : world)
    (resp : response) (root : Element) :
  http_get E (nreq w) sitemap_url = Ok resp →
  content_xml resp = Ok root →
  (∀ u loc, u ∈ findall url_tag root →
            find loc_tag u = Some loc → text loc ≠ None) →
  get_urls_in_sitemap E sitemap_url w
  = (Ok (filter (fun v => ¬ substring (py "/search") v)
           (omap first_loc_text (findall url_tag root))),
     requested sitemap_url w).
Proof.
  intros Hget Hxml Htext.
  rewrite (get_urls_in_sitemap_eq E sitemap_url w resp root Hget Hxml).
  by rewrite loc_values_ok.
Qed.

Lemma get_urls_in_sitemap_returns_witness :
  http_get (serving sample_sitemap) 0 sitemap_xml
    = Ok {| content_xml := Ok sample_sitemap; text_html := [] |}
  ∧ fst (get_urls_in_sitemap (serving sample_sitemap) sitemap_xml (fresh ∅))
    = Ok [py "https://example.org/"; py "https://example.org/about"].
Proof.
  split; [reflexivity|].
  rewrite (get_urls_in_sitemap_returns (serving sample_sitemap) sitemap_xml
             (fresh ∅) _ sample_sitemap eq_refl eq_refl).
  - vm_compute. reflexivity.
  - intros u loc Hu Hfind. vm_compute in Hu.
    repeat (apply elem_of_cons in Hu as [->|Hu];
            [vm_compute in Hfind; try discriminate Hfind;
             injection Hfind as <-; discriminate|]).
    by apply elem_of_nil in Hu.
Defined.

(** C9. A [url] element without a [loc] child adds nothing to the result and
    raises nothing: the call gives what the other [url] elements give. *)
Theorem url_without_loc_excluded (E : env) (sitemap_url : str) (w : world)
    (resp : response) (root : Element) (before after : list Element)
    (u : Element) :
  http_get E (nreq w) sitemap_url = Ok resp →
  content_xml resp = Ok root →
  findall url_tag root = before ++ u :: after →
  find loc_tag u = None →
  get_urls_in_sitemap E sitemap_url w
  = (loc_values (before ++ after), requested sitemap_url w).
Proof.
  intros Hget Hxml Hurls Hu.
  rewrite (get_urls_in_sitemap_eq E sitemap_url w resp root Hget Hxml).
  by rewrite Hurls, loc_values_skip.
Qed.

Lemma url_without_loc_excluded_witness :
  find loc_tag
    (url_elem
       [Elem "{http://www.sitemaps.org/schemas/sitemap/0.9}lastmod"
          (Some (py "2023-04-01")) []]) = None
  ∧ get_urls_in_sitemap (serving sample_sitemap) sitemap_xml (fresh ∅)
    = (Ok [py "https://example.org/"; py "https://example.org/about"],
       requested sitemap_xml (fresh ∅)).
Proof.
  split; [reflexivity|].
  rewrite (url_without_loc_excluded (serving sample_sitemap) sitemap_xml
             (fresh ∅) _ sample_sitemap
             [url_elem [loc_elem "https://example.org/"];
              url_elem [loc_elem "https://example.org/search?q=rocq"]]
             [url_elem [loc_elem "https://example.org/about"]]
             (url_elem
                [Elem "{http://www.sitemaps.org/schemas/sitemap/0.9}lastmod"
                   (Some (py "2023-04-01")) []])
             eq_refl eq_refl eq_refl eq_refl).
  reflexivity.
Defined.

(** ** The persister *)

(** *** File names *)

Lemma py_inj (s1 s2 : string) : py s1 = py s2 → s1 = s2.
Proof.
  unfold py. revert s2. induction s1 as [|a s1 IH]; intros [|b s2] H;
    simpl in H; try done.
  inversion H as [[Hab Hrest]].
  f_equal; [|by apply IH].
  rewrite <- (ascii_N_embedding a), <- (ascii_N_embedding b). by rewrite Hab.
Qed.

Lemma webpage_file_inj (i j : nat) : webpage_file i = webpage_file j → i = j.
Proof.
  unfold webpage_file. intros H.
  apply app_inv_head, app_inv_tail, py_inj in H.
  by apply (inj pretty) in H.
Qed.

Lemma webpage_file_not_npy (idx : nat) : webpage_file idx ≠ npy_path.
Proof.
  intros H. apply (f_equal (take 6)) in H.
  unfold webpage_file in H. rewrite take_app_le in H by (vm_compute; lia).
  vm_compute in H. discriminate H.
Qed.

Lemma webpage_file_not_csv (idx : nat) : webpage_file idx ≠ csv_path.
Proof.
  intros H. apply (f_equal (take 6)) in H.
  unfold webpage_file in H. rewrite take_app_le in H by (vm_compute; lia).
  vm_compute in H. discriminate H.
Qed.

Lemma csv_not_npy : csv_path ≠ npy_path.
Proof. intros H. vm_compute in H. discriminate H. Qed.

(** *** Encoding *)

Lemma encode_error_from_None (pos : nat) (s : str) :
  encode_error_from pos s = None ↔ Forall (fun c => is_surrogate c = false) s.
Proof.
  revert pos. induction s as [|c s IH]; intros pos; simpl.
  - split; [constructor | done].
  - rewrite Forall_cons. destruct (is_surrogate c).
    + split; [done | by intros [? _]].
    + rewrite IH. tauto.
Qed.

(** A string can be encoded exactly when it holds no surrogate. *)
Lemma encode_error_None (s : str) :
  encode_error s = None ↔ Forall (fun c => is_surrogate c = false) s.
Proof. apply encode_error_from_None. Qed.

Lemma py_no_surrogate (s : string) :
  Forall (fun c => is_surrogate c = false) (py s).
Proof.
  unfold py. induction s as [|a s IH]; simpl; constructor; [|exact IH].
  unfold is_surrogate. pose proof (N_ascii_bounded a).
  apply andb_false_iff. left. apply N.leb_gt. lia.
Qed.

Lemma webpage_file_encodable (idx : nat) :
  Forall (fun c => is_surrogate c = false) (webpage_file idx).
Proof.
  unfold webpage_file. rewrite !Forall_app. auto using py_no_surrogate.
Qed.

Lemma csv_field_no_surrogate (field : str) :
  Forall (fun c => is_surrogate c = false) field →
  Forall (fun c => is_surrogate c = false) (csv_field field).
Proof.
  intros H. unfold csv_field. destruct (needs_quotes field); [|done].
  rewrite !Forall_app. split; [by repeat constructor|].
  split; [|by repeat constructor].
  induction H as [|c l Hc _ IH]; simpl; [constructor|].
  destruct (c =? 34)%N; repeat (constructor; try done).
Qed.

Lemma csv_line_pair (u f : str) :
  csv_line [u; f] = (csv_field u ++ [44%N] ++ csv_field f) ++ [13%N; 10%N].
Proof. by destruct u. Qed.

(** The line of a row (url, filename) can be encoded as soon as both
    fields can. *)
Lemma csv_line_encodable (u f : str) :
  encode_error u = None → encode_error f = None →
  encode_error (csv_line [u; f]) = None.
Proof.
  rewrite !encode_error_None, csv_line_pair. intros Hu Hf.
  rewrite !Forall_app.
  repeat split; auto using csv_field_no_surrogate; by repeat constructor.
Qed.

Lemma csv_line_url_encodable (u f : str) :
  encode_error (csv_line [u; f]) = None → encode_error u = None.
Proof.
  rewrite !encode_error_None, csv_line_pair.
  rewrite !Forall_app. intros [[Hu _] _]. revert Hu.
  unfold csv_field. destruct (needs_quotes u); [|done].
  rewrite !Forall_app. intros (_ & Hu & _).
  induction u as [|c u IH]; [constructor|]. simpl in Hu.
  apply Forall_app in Hu as [Hc Hu]. constructor; [|by apply IH].
  destruct (c =? 34)%N eqn:Hq.
  - apply N.eqb_eq in Hq. by subst c.
  - by inversion Hc.
Qed.

Lemma writerows_ok (rows : list (list str)) :
  Forall (fun row => encode_error (csv_line row) = None) rows →
  writerows rows = (rows, None).
Proof.
  induction 1 as [|row rows Hrow _ IH]; simpl; [done|].
  by rewrite Hrow, IH.
Qed.

(** When a row cannot be encoded, the rows that reach the file are the
    rows before the first such row. *)
Lemma writerows_error (rows kept : list (list str)) (e : exn) :
  writerows rows = (kept, Some e) →
  ∃ row rest, rows = kept ++ row :: rest
    ∧ Forall (fun r => encode_error (csv_line r) = None) kept
    ∧ encode_error (csv_line row) = Some e.
Proof.
  revert kept. induction rows as [|row rows IH]; intros kept; simpl; [done|].
  destruct (encode_error (csv_line row)) as [e'|] eqn:Hrow.
  - intros [= <- <-]. exists row, rows. by repeat split.
  - destruct (writerows rows) as [kept' err] eqn:Hrest.
    intros [= <- ->]. destruct (IH kept' eq_refl) as (r & rest & -> & Hd & Hr).
    exists r, rest. repeat split; [|done]. by constructor.
Qed.

(** *** One turn of the loop, case by case *)

Lemma loop_body_scrape_failed E idx url d w e :
  http_get E (nreq w) url = Raised e →
  loop_body E idx url d w = (Ok d, after_scrape_failed url e w).
Proof.
  intros H. unfold loop_body, try_except_else, scrape_webpage, bind,
    requests_get. by rewrite H.
Qed.

Lemma loop_body_saved E idx url d w resp :
  http_get E (nreq w) url = Ok resp →
  open_error E (webpage_file idx) = None →
  encode_error (filtered_text (text_html resp)) = None →
  loop_body E idx url d w
  = (Ok (dict_set d url (webpage_file idx)),
     after_saved E idx url (filtered_text (text_html resp)) w).
Proof.
  intros H Ho He. unfold loop_body, try_except_else, scrape_webpage, bind,
    requests_get. rewrite H. unfold ret at 1.
  unfold try_except, try_except_else, bind, write_text. by rewrite Ho, He.
Qed.

Lemma loop_body_write_failed E idx url d w resp e :
  http_get E (nreq w) url = Ok resp →
  open_error E (webpage_file idx) = Some e →
  loop_body E idx url d w = (Ok d, after_write_failed E idx url e w).
Proof.
  intros H Ho. unfold loop_body, try_except_else, scrape_webpage, bind,
    requests_get. rewrite H. unfold ret at 1.
  unfold try_except, try_except_else, bind, write_text. by rewrite Ho.
Qed.

Lemma loop_body_encode_failed E idx url d w resp e :
  http_get E (nreq w) url = Ok resp →
  open_error E (webpage_file idx) = None →
  encode_error (filtered_text (text_html resp)) = Some e →
  loop_body E idx url d w = (Ok d, after_encode_failed E idx url e w).
Proof.
  intros H Ho He. unfold loop_body, try_except_else, scrape_webpage, bind,
    requests_get. rewrite H. unfold ret at 1.
  unfold try_except, try_except_else, bind, write_text. by rewrite Ho, He.
Qed.

(** *** The loop: an invariant rule *)

(** A property [I idx d w] of the index, the mapping and the world that
    holds on entry and that every turn keeps, in each of its four cases,
    holds when the loop ends; and the loop does end, without raising.  The
    [idx]-th turn sends the request number [n0 + idx]. *)
Lemma for_enumerate_rule (E : env) (urls : list str) (n0 : nat)
    (I : nat → dict → world → Prop) :
  (∀ idx url d w e,
     urls !! idx = Some url → nreq w = n0 + idx → I idx d w →
     http_get E (n0 + idx) url = Raised e →
     I (S idx) d (after_scrape_failed url e w)) →
  (∀ idx url d w resp,
     urls !! idx = Some url → nreq w = n0 + idx → I idx d w →
     http_get E (n0 + idx) url = Ok resp →
     open_error E (webpage_file idx) = None →
     encode_error (filtered_text (text_html resp)) = None →
     I (S idx) (dict_set d url (webpage_file idx))
       (after_saved E idx url (filtered_text (text_html resp)) w)) →
  (∀ idx url d w resp e,
     urls !! idx = Some url → nreq w = n0 + idx → I idx d w →
     http_get E (n0 + idx) url = Ok resp →
     open_error E (webpage_file idx) = Some e →
     I (S idx) d (after_write_failed E idx url e w)) →
  (∀ idx url d w resp e,
     urls !! idx = Some url → nreq w = n0 + idx → I idx d w →
     http_get E (n0 + idx) url = Ok resp →
     open_error E (webpage_file idx) = None →
     encode_error (filtered_text (text_html resp)) = Some e →
     I (S idx) d (after_encode_failed E idx url e w)) →
  ∀ d w, nreq w = n0 → I 0 d w →
  ∃ d' w', for_enumerate E 0 urls d w = (Ok d', w')
           ∧ nreq w' = n0 + length urls ∧ I (length urls) d' w'.
Proof.
  intros Hfail Hsaved Hwfail Hefail.
  assert (Hgen : ∀ rest done d w,
            urls = done ++ rest → nreq w = n0 + length done →
            I (length done) d w →
            ∃ d' w', for_enumerate E (length done) rest d w = (Ok d', w')
                     ∧ nreq w' = n0 + length urls ∧ I (length urls) d' w').
  { induction rest as [|url rest IH]; intros done d w Hurls Hn HI.
    - exists d, w. subst urls. rewrite app_nil_r. by simpl.
    - assert (Hlook : urls !! length done = Some url).
      { subst urls. by rewrite list_lookup_middle. }
      assert (Hurls' : urls = (done ++ [url]) ++ rest).
      { by rewrite <- app_assoc. }
      assert (Hlen : length (done ++ [url]) = S (length done)).
      { rewrite length_app. simpl. lia. }
      specialize (IH (done ++ [url])). rewrite Hlen in IH.
      simpl. unfold bind at 1.
      destruct (http_get E (n0 + length done) url) as [resp|e] eqn:Hget.
      + destruct (open_error E (webpage_file (length done))) as [e|] eqn:Ho.
        * rewrite (loop_body_write_failed E _ url d w resp e)
            by (by rewrite ?Hn).
          apply IH; [done | simpl; lia | by eapply Hwfail].
        * destruct (encode_error (filtered_text (text_html resp)))
            as [e|] eqn:He.
          -- rewrite (loop_body_encode_failed E _ url d w resp e)
               by (by rewrite ?Hn).
             apply IH; [done | simpl; lia | by eapply Hefail].
          -- rewrite (loop_body_saved E _ url d w resp) by (by rewrite ?Hn).
             apply IH; [done | simpl; lia | by eapply Hsaved].
      + rewrite (loop_body_scrape_failed E _ url d w e) by (by rewrite ?Hn).
        apply IH; [done | simpl; lia | by eapply Hfail]. }
  intros d w Hn HI. apply (Hgen urls [] d w); simpl; [done | lia | done].
Qed.

Lemma trace_after_scrape_failed url e w :
  trace (after_scrape_failed url e w)
  = trace w ++ [Requested url; Printed (scrape_failed url e)].
Proof. simpl. by rewrite <- app_assoc. Qed.

Lemma trace_after_saved E idx url t w :
  trace (after_saved E idx url t w)
  = trace w ++ [Requested url; Wrote (webpage_file idx) (TextFile t);
                Printed (wrote_file (webpage_file idx));
                Slept (randint_value (entropy E (ndraw w)) 3 7)].
Proof. simpl. by rewrite <- !app_assoc. Qed.

Lemma trace_after_write_failed E idx url e w :
  trace (after_write_failed E idx url e w)
  = trace w ++ [Requested url; Printed (write_failed (webpage_file idx) e);
                Slept (randint_value (entropy E (ndraw w)) 3 7)].
Proof. simpl. by rewrite <- !app_assoc. Qed.

Lemma trace_after_encode_failed E idx url e w :
  trace (after_encode_failed E idx url e w)
  = trace w ++ [Requested url; Partial (webpage_file idx) (TextFile []);
                Printed (write_failed (webpage_file idx) e);
                Slept (randint_value (entropy E (ndraw w)) 3 7)].
Proof. simpl. by rewrite <- !app_assoc. Qed.

(** *** What the loop writes *)

Lemma saved_at_opened E n0 urls i u t :
  saved_at E n0 urls i u t → opened_at E n0 urls i u.
Proof. intros (Hu & (r & Hr & _) & Ho & _). split; [done|]. by split; [exists r|]. Qed.

Lemma spoiled_at_opened E n0 urls i u :
  spoiled_at E n0 urls i u → opened_at E n0 urls i u.
Proof. intros (Hu & (r & Hr & _) & Ho). split; [done|]. by split; [exists r|]. Qed.

Lemma opened_at_lt E n0 urls i u : opened_at E n0 urls i u → i < length urls.
Proof. intros (Hu & _). by eapply lookup_lt_Some. Qed.

Lemma for_enumerate_writes (E : env) (urls : list str) (d : dict) (w : world) :
  ∃ d' w', for_enumerate E 0 urls d w = (Ok d', w')
           ∧ nreq w' = nreq w + length urls
           ∧ writes_inv E (nreq w) urls w (length urls) w'.
Proof.
  apply (for_enumerate_rule E urls (nreq w)
           (fun k _ w' => writes_inv E (nreq w) urls w k w')).
  - (* the scrape fails *)
    intros idx url d1 w1 e Hlook Hn
      (evs & Htr & Hsound & Hcompl & Hspoiled & Hframe) Hget.
    exists (evs ++ [Requested url; Printed (scrape_failed url e)]).
    assert (Hold : ∀ i u, i < S idx → opened_at E (nreq w) urls i u → i < idx).
    { intros i u Hi (Hu & (r & Hr) & _).
      destruct (decide (i = idx)) as [->|]; [|lia].
      rewrite Hlook in Hu. injection Hu as <-. congruence. }
    split; [|split; [|split; [|split]]].
    + by rewrite trace_after_scrape_failed, Htr, <- app_assoc.
    + intros path f Hin. apply elem_of_app in Hin as [Hin|Hin].
      * destruct (Hsound path f Hin) as (i & u & t & Hi & Hs).
        exists i, u, t. split; [lia | done].
      * apply elem_of_cons in Hin as [?|Hin]; [done|].
        apply elem_of_cons in Hin as [?|Hin]; [done|].
        by apply elem_of_nil in Hin.
    + intros i u t Hi Hs.
      destruct (Hcompl i u t (Hold i u Hi (saved_at_opened _ _ _ _ _ _ Hs)) Hs)
        as [H1 H2].
      split; [apply elem_of_app; by left | done].
    + intros i u Hi Hs. simpl.
      apply (Hspoiled i u (Hold i u Hi (spoiled_at_opened _ _ _ _ _ Hs)) Hs).
    + intros path Hp. simpl. apply Hframe. intros i u Hi. apply Hp. lia.
  - (* the text is saved *)
    intros idx url d1 w1 resp Hlook Hn
      (evs & Htr & Hsound & Hcompl & Hspoiled & Hframe) Hget Hopen Henc.
    set (t0 := filtered_text (text_html resp)) in *.
    assert (Hnow : saved_at E (nreq w) urls idx url t0).
    { split; [done|]. split; [by exists resp | done]. }
    exists (evs ++ [Requested url; Wrote (webpage_file idx) (TextFile t0);
                    Printed (wrote_file (webpage_file idx));
                    Slept (randint_value (entropy E (ndraw w1)) 3 7)]).
    split; [|split; [|split; [|split]]].
    + by rewrite trace_after_saved, Htr, <- app_assoc.
    + intros path f Hin. apply elem_of_app in Hin as [Hin|Hin].
      * destruct (Hsound path f Hin) as (i & u & t & Hi & Hs).
        exists i, u, t. split; [lia | done].
      * apply elem_of_cons in Hin as [?|Hin]; [done|].
        apply elem_of_cons in Hin as [Heq|Hin].
        { injection Heq as -> ->. exists idx, url, t0. split; [lia | done]. }
        apply elem_of_cons in Hin as [?|Hin]; [done|].
        apply elem_of_cons in Hin as [?|Hin]; [done|].
        by apply elem_of_nil in Hin.
    + intros i u t Hi Hs. simpl. destruct (decide (i = idx)) as [->|Hne].
      * destruct Hs as (Hu & (r & Hr & Ht) & _).
        rewrite Hlook in Hu. injection Hu as <-.
        assert (r = resp) as -> by congruence. subst t. fold t0.
        split; [|by rewrite lookup_insert_eq].
        apply elem_of_app. right. apply elem_of_cons. right.
        apply elem_of_cons. by left.
      * destruct (Hcompl i u t) as [H1 H2]; [lia | done |].
        split; [apply elem_of_app; by left|].
        rewrite lookup_insert_ne; [done|].
        intros Heq. apply webpage_file_inj in Heq. congruence.
    + intros i u Hi Hs. simpl. destruct (decide (i = idx)) as [->|Hne].
      * destruct Hs as (Hu & (r & Hr & Hbad) & _).
        rewrite Hlook in Hu. injection Hu as <-.
        assert (r = resp) as -> by congruence. by fold t0 in Hbad.
      * rewrite lookup_insert_ne.
        -- apply (Hspoiled i u); [lia | done].
        -- intros Heq. apply webpage_file_inj in Heq. congruence.
    + intros path Hp. simpl. rewrite lookup_insert_ne.
      * apply Hframe. intros i u Hi. apply Hp. lia.
      * intros <-. apply (Hp idx url); [lia | | done].
        by apply (saved_at_opened _ _ _ _ _ t0).
  - (* the file cannot be opened *)
    intros idx url d1 w1 resp e Hlook Hn
      (evs & Htr & Hsound & Hcompl & Hspoiled & Hframe) Hget Hopen.
    exists (evs ++ [Requested url; Printed (write_failed (webpage_file idx) e);
                    Slept (randint_value (entropy E (ndraw w1)) 3 7)]).
    assert (Hold : ∀ i u, i < S idx → opened_at E (nreq w) urls i u → i < idx).
    { intros i u Hi (Hu & _ & Ho).
      destruct (decide (i = idx)) as [->|]; [|lia]. congruence. }
    split; [|split; [|split; [|split]]].
    + by rewrite trace_after_write_failed, Htr, <- app_assoc.
    + intros path f Hin. apply elem_of_app in Hin as [Hin|Hin].
      * destruct (Hsound path f Hin) as (i & u & t & Hi & Hs).
        exists i, u, t. split; [lia | done].
      * apply elem_of_cons in Hin as [?|Hin]; [done|].
        apply elem_of_cons in Hin as [?|Hin]; [done|].
        apply elem_of_cons in Hin as [?|Hin]; [done|].
        by apply elem_of_nil in Hin.
    + intros i u t Hi Hs.
      destruct (Hcompl i u t (Hold i u Hi (saved_at_opened _ _ _ _ _ _ Hs)) Hs)
        as [H1 H2].
      split; [apply elem_of_app; by left | done].
    + intros i u Hi Hs. simpl.
      apply (Hspoiled i u (Hold i u Hi (spoiled_at_opened _ _ _ _ _ Hs)) Hs).
    + intros path Hp. simpl. apply Hframe. intros i u Hi. apply Hp. lia.
  - (* the text cannot be encoded *)
    intros idx url d1 w1 resp e Hlook Hn
      (evs & Htr & Hsound & Hcompl & Hspoiled & Hframe) Hget Hopen Henc.
    assert (Hnow : spoiled_at E (nreq w) urls idx url).
    { split; [done|]. split; [|done]. exists resp. split; [done|]. congruence. }
    exists (evs ++ [Requested url; Partial (webpage_file idx) (TextFile []);
                    Printed (write_failed (webpage_file idx) e);
                    Slept (randint_value (entropy E (ndraw w1)) 3 7)]).
    split; [|split; [|split; [|split]]].
    + by rewrite trace_after_encode_failed, Htr, <- app_assoc.
    + intros path f Hin. apply elem_of_app in Hin as [Hin|Hin].
      * destruct (Hsound path f Hin) as (i & u & t & Hi & Hs).
        exists i, u, t. split; [lia | done].
      * apply elem_of_cons in Hin as [?|Hin]; [done|].
        apply elem_of_cons in Hin as [?|Hin]; [done|].
        apply elem_of_cons in Hin as [?|Hin]; [done|].
        apply elem_of_cons in Hin as [?|Hin]; [done|].
        by apply elem_of_nil in Hin.
    + intros i u t Hi Hs. simpl. destruct (decide (i = idx)) as [->|Hne].
      * destruct Hs as (Hu & (r & Hr & Ht) & _ & Hgood).
        rewrite Hlook in Hu. injection Hu as <-.
        assert (r = resp) as -> by congruence. subst t. congruence.
      * destruct (Hcompl i u t) as [H1 H2]; [lia | done |].
        split; [apply elem_of_app; by left|].
        rewrite lookup_insert_ne; [done|].
        intros Heq. apply webpage_file_inj in Heq. congruence.
    + intros i u Hi Hs. simpl. destruct (decide (i = idx)) as [->|Hne].
      * by rewrite lookup_insert_eq.
      * rewrite lookup_insert_ne.
        -- apply (Hspoiled i u); [lia | done].
        -- intros Heq. apply webpage_file_inj in Heq. congruence.
    + intros path Hp. simpl. rewrite lookup_insert_ne.
      * apply Hframe. intros i u Hi. apply Hp. lia.
      * intros <-. apply (Hp idx url); [lia | | done].
        by apply spoiled_at_opened.
  - reflexivity.
  - exists []. split; [by rewrite app_nil_r|]. split; [|split; [|split]].
    + intros path f Hin. by apply elem_of_nil in Hin.
    + intros i u t Hi. lia.
    + intros i u Hi. lia.
    + done.
Qed.

(** *** The whole call *)

Lemma write_mapping_eq E d w : write_mapping E d w = (Ok tt, finished E d w).
Proof.
  unfold write_mapping, try_except, try_except_else, write_csv, finished.
  destruct (open_error E csv_path); [done|].
  by destruct (writerows (csv_rows d)) as [kept [e|]].
Qed.

Lemma save_to_files_raises E urls w e :
  open_error E npy_path = Some e → save_to_files E urls w = (Raised e, w).
Proof. intros H. unfold save_to_files, bind, np_save. by rewrite H. Qed.

Lemma save_to_files_eq E urls w :
  open_error E npy_path = None →
  save_to_files E urls w
  = (let* m := for_enumerate E 0 urls [] in write_mapping E m)
      (written npy_path (NpyFile urls) w).
Proof. intros H. unfold save_to_files, bind at 1, np_save. by rewrite H. Qed.

Lemma for_enumerate_app E k (l1 l2 : list str) d w :
  for_enumerate E k (l1 ++ l2) d w
  = (let* d1 := for_enumerate E k l1 d in
     for_enumerate E (k + length l1) l2 d1) w.
Proof.
  revert k d w. induction l1 as [|u l1 IH]; intros k d w; simpl.
  - unfold bind, ret. by rewrite Nat.add_0_r.
  - unfold bind.
    destruct (loop_body E k u d w) as [[d1|e] w1]; [|done].
    rewrite IH. unfold bind. by rewrite Nat.add_succ_r.
Qed.

(** When the array can be saved the call returns, and this is its course:
    the array, the loop, the mapping. *)
Lemma save_to_files_run (E : env) (urls : list str) (w : world) :
  open_error E npy_path = None →
  let w0 := written npy_path (NpyFile urls) w in
  ∃ d w1,
    for_enumerate E 0 urls [] w0 = (Ok d, w1)
    ∧ nreq w1 = nreq w + length urls
    ∧ writes_inv E (nreq w) urls w0 (length urls) w1
    ∧ save_to_files E urls w = (Ok tt, finished E d w1).
Proof.
  intros Hnpy w0.
  destruct (for_enumerate_writes E urls [] w0) as (d & w1 & Hloop & Hn & Hinv).
  exists d, w1. split; [done|]. split; [done|]. split; [done|].
  rewrite save_to_files_eq by done. unfold bind. fold w0. rewrite Hloop.
  apply write_mapping_eq.
Qed.

Lemma saved_at_lt E n0 urls i u t : saved_at E n0 urls i u t → i < length urls.
Proof. intros (Hu & _). by eapply lookup_lt_Some. Qed.

Lemma fs_finished_ne E d w path :
  path ≠ csv_path → fs (finished E d w) !! path = fs w !! path.
Proof.
  intros Hne. unfold finished. destruct (open_error E csv_path); [done|].
  destruct (writerows (csv_rows d)) as [kept [e|]]; simpl;
    by rewrite lookup_insert_ne.
Qed.

(** The events of the last statement: no request, no pause, and no write
    other than that of the rows to the mapping file. *)
Lemma trace_finished E d w :
  ∃ evs, trace (finished E d w) = trace w ++ evs
         ∧ (∀ path f, Wrote path f ∈ evs →
              path = csv_path ∧ f = CsvFile (csv_rows d))
         ∧ sleeps evs = [] ∧ requests evs = [].
Proof.
  unfold finished. destruct (open_error E csv_path) as [e|].
  - exists [Printed (map_failed e)]. split; [done|]. split; [|done].
    intros path f H. apply elem_of_cons in H as [?|H]; [done|].
    by apply elem_of_nil in H.
  - destruct (writerows (csv_rows d)) as [kept [e|]].
    + exists [Partial csv_path (CsvFile kept); Printed (map_failed e)].
      split; [simpl; by rewrite <- app_assoc|]. split; [|done].
      intros path f H. apply elem_of_cons in H as [?|H]; [done|].
      apply elem_of_cons in H as [?|H]; [done|]. by apply elem_of_nil in H.
    + exists [Wrote csv_path (CsvFile (csv_rows d))]. split; [done|].
      split; [|done]. intros path f H.
      apply elem_of_cons in H as [Heq|H]; [|by apply elem_of_nil in H].
      by injection Heq as -> ->.
Qed.

(** The mapping file gets all its rows when it can be opened and every URL
    and file name of the mapping can be encoded. *)
Lemma finished_written E (d : dict) w :
  open_error E csv_path = None →
  Forall (fun item => encode_error item.1 = None
                      ∧ encode_error item.2 = None) d →
  finished E d w = written csv_path (CsvFile (csv_rows d)) w.
Proof.
  intros Hcsv Hd. unfold finished. rewrite Hcsv.
  rewrite writerows_ok; [done|]. unfold csv_rows. constructor.
  - apply csv_line_encodable; apply encode_error_None, py_no_surrogate.
  - apply Forall_fmap. eapply Forall_impl; [exact Hd|].
    intros [u f] [Hu Hf]. by apply csv_line_encodable.
Qed.

(** C6. When the array file can be written, [save_to_files] returns, its
    first act is to save the whole input list, in order, and at the end the
    array file still holds it: whatever the requests and the other files do. *)
Theorem save_to_files_saves_url_list (E : env) (urls : list str) (w : world) :
  open_error E npy_path = None →
  ∃ w' evs,
    save_to_files E urls w = (Ok tt, w')
    ∧ trace w' = trace w ++ Wrote npy_path (NpyFile urls) :: evs
    ∧ (∀ f, Wrote npy_path f ∉ evs)
    ∧ fs w' !! npy_path = Some (NpyFile urls).
Proof.
  intros Hnpy.
  destruct (save_to_files_run E urls w Hnpy)
    as (d & w1 & _ & _ & (evs & Htr & Hsound & _ & _ & Hframe) & Hrun).
  destruct (trace_finished E d w1) as (fin & Hfin & Hev & _).
  exists (finished E d w1), (evs ++ fin).
  split; [done|]. split; [|split].
  - rewrite Hfin, Htr. simpl. by rewrite <- !app_assoc.
  - intros f Hin. apply elem_of_app in Hin as [Hin|Hin].
    + destruct (Hsound _ _ Hin) as (i & u & t & _ & _ & Hpath & _).
      by apply (webpage_file_not_npy i).
    + destruct (Hev npy_path f Hin) as [Hp _]. by apply csv_not_npy.
  - rewrite fs_finished_ne by (intros H; by apply csv_not_npy).
    rewrite Hframe.
    + simpl. by rewrite lookup_insert_eq.
    + intros i u _ _ H. by apply (webpage_file_not_npy i).
Qed.

Lemma save_to_files_saves_url_list_witness :
  open_error flaky_env npy_path = None
  ∧ fs (snd (save_to_files flaky_env [page_url; down_url; page_url] (fresh ∅)))
      !! npy_path
    = Some (NpyFile [page_url; down_url; page_url]).
Proof.
  split; [reflexivity|].
  destruct (save_to_files_saves_url_list flaky_env
              [page_url; down_url; page_url] (fresh ∅) eq_refl)
    as (w' & evs & Hrun & _ & _ & Hfs).
  rewrite Hrun. exact Hfs.
Defined.

(** C7. A URL at position [idx] of the list whose text is written (its page
    is fetched, its file can be opened, its text can be encoded) has the
    text written to "data/webpage_<idx>.txt", [idx] in decimal, and the
    file holds it when the call returns; every text written by the call
    goes to the file of such a position, and different positions have
    different files. *)
Theorem text_goes_to_indexed_file (E : env) (urls : list str) (w : world)
    (idx : nat) (url : str) (resp : response) :
  open_error E npy_path = None →
  urls !! idx = Some url →
  http_get E (nreq w + idx) url = Ok resp →
  open_error E (py "data/webpage_" ++ py (pretty idx) ++ py ".txt") = None →
  encode_error (filtered_text (text_html resp)) = None →
  let filename := py "data/webpage_" ++ py (pretty idx) ++ py ".txt" in
  let text := filtered_text (text_html resp) in
  ∃ w' evs,
    save_to_files E urls w = (Ok tt, w')
    ∧ trace w' = trace w ++ evs
    ∧ Wrote filename (TextFile text) ∈ evs
    ∧ fs w' !! filename = Some (TextFile text)
    ∧ (∀ path t, Wrote path (TextFile t) ∈ evs →
         ∃ i u r, urls !! i = Some u
                  ∧ http_get E (nreq w + i) u = Ok r
                  ∧ t = filtered_text (text_html r)
                  ∧ encode_error t = None
                  ∧ path = py "data/webpage_" ++ py (pretty i) ++ py ".txt")
    ∧ (∀ j, py "data/webpage_" ++ py (pretty j) ++ py ".txt" = filename →
            j = idx).
Proof.
  intros Hnpy Hlook Hget Hopen Henc filename text.
  change filename with (webpage_file idx) in *.
  destruct (save_to_files_run E urls w Hnpy)
    as (d & w1 & _ & _ & (evs & Htr & Hsound & Hcompl & _) & Hrun).
  destruct (trace_finished E d w1) as (fin & Hfin & Hev & _).
  assert (Hs : saved_at E (nreq w) urls idx url text).
  { split; [done|]. split; [by exists resp | done]. }
  destruct (Hcompl idx url text (saved_at_lt _ _ _ _ _ _ Hs) Hs) as [Hin Hfs].
  exists (finished E d w1), (Wrote npy_path (NpyFile urls) :: evs ++ fin).
  split; [done|]. split; [|split; [|split; [|split]]].
  - rewrite Hfin, Htr. simpl. by rewrite <- !app_assoc.
  - apply elem_of_cons. right. apply elem_of_app. by left.
  - rewrite fs_finished_ne by apply webpage_file_not_csv. done.
  - intros path t Hw. apply elem_of_cons in Hw as [Heq|Hw]; [done|].
    apply elem_of_app in Hw as [Hw|Hw].
    + destruct (Hsound _ _ Hw)
        as (i & u & t' & _ & (Hu & (r & Hr & Ht) & _ & He) & Hpath & Hf).
      injection Hf as ->. by exists i, u, r.
    + by destruct (Hev path (TextFile t) Hw) as [_ ?].
  - intros j Hj. by apply webpage_file_inj.
Qed.

Lemma text_goes_to_indexed_file_witness :
  [page_url; down_url; page_url] !! 2 = Some page_url
  ∧ fs (snd (save_to_files flaky_env [page_url; down_url; page_url] (fresh ∅)))
      !! py "data/webpage_2.txt"
    = Some (TextFile
              (py "Title one two three four five six seven eight nine ten")).
Proof.
  split; [reflexivity|].
  destruct (text_goes_to_indexed_file flaky_env
              [page_url; down_url; page_url] (fresh ∅) 2 page_url
              sample_response eq_refl eq_refl eq_refl eq_refl eq_refl)
    as (w' & evs & Hrun & _ & _ & Hfs & _).
  rewrite Hrun. exact Hfs.
Defined.

(** C10. The text [scrape_webpage] returns has no newline in it, and so has
    none of the text files that [save_to_files] writes. *)
Theorem scraped_text_is_one_line (E : env) :
  (∀ url w, match scrape_webpage E url w with
            | (Ok t, _) => newline ∉ t
            | (Raised _, _) => True
            end)
  ∧ (∀ urls w, ∃ evs,
       trace (snd (save_to_files E urls w)) = trace w ++ evs
       ∧ ∀ path t, Wrote path (TextFile t) ∈ evs → newline ∉ t).
Proof.
  split.
  - intros url w. unfold scrape_webpage, bind, requests_get, ret.
    destruct (http_get E (nreq w) url); [|done].
    apply filtered_text_no_newline.
  - intros urls w. destruct (open_error E npy_path) as [e|] eqn:Hnpy.
    + rewrite (save_to_files_raises E urls w e Hnpy). exists [].
      split; [by rewrite app_nil_r|].
      intros path t H. by apply elem_of_nil in H.
    + destruct (save_to_files_run E urls w Hnpy)
        as (d & w1 & _ & _ & (evs & Htr & Hsound & _) & Hrun).
      destruct (trace_finished E d w1) as (fin & Hfin & Hev & _).
      exists (Wrote npy_path (NpyFile urls) :: evs ++ fin). split.
      * rewrite Hrun. simpl. rewrite Hfin, Htr. simpl. by rewrite <- !app_assoc.
      * intros path t Hw. apply elem_of_cons in Hw as [Heq|Hw]; [done|].
        apply elem_of_app in Hw as [Hw|Hw].
        -- destruct (Hsound _ _ Hw)
             as (i & u & t' & _ & (_ & (r & _ & Ht) & _) & _ & Hf).
           injection Hf as ->. subst t'. apply filtered_text_no_newline.
        -- by destruct (Hev path (TextFile t) Hw) as [_ ?].
Qed.

(** C4. When the scrape of the URL at a position raises [e], its turn only
    sends the one request and prints the line "Failed to scrape webpage:
    <url>, due to: <str(e)>": the mapping and the files are as before the
    turn, there is no pause, and the call goes on with the URL after it;
    the file of that position is never touched by the call. *)
Theorem failed_scrape_is_skipped (E : env) (before : list str) (url : str)
    (after : list str) (w : world) (e : exn) :
  open_error E npy_path = None →
  http_get E (nreq w + length before) url = Raised e →
  let urls := before ++ url :: after in
  let idx := length before in
  ∃ d w1,
    for_enumerate E 0 before [] (written npy_path (NpyFile urls) w)
      = (Ok d, w1)
    ∧ loop_body E idx url d w1 = (Ok d, after_scrape_failed url e w1)
    ∧ fs (after_scrape_failed url e w1) = fs w1
    ∧ trace (after_scrape_failed url e w1)
      = trace w1
          ++ [Requested url;
              Printed (py "Failed to scrape webpage: " ++ url
                         ++ py ", due to: " ++ exn_str e)]
    ∧ save_to_files E urls w
      = (let* m := for_enumerate E (S idx) after d in write_mapping E m)
          (after_scrape_failed url e w1)
    ∧ fs (snd (save_to_files E urls w)) !! webpage_file idx
      = fs w !! webpage_file idx.
Proof.
  intros Hnpy Hget urls idx.
  set (w0 := written npy_path (NpyFile urls) w).
  destruct (for_enumerate_writes E before [] w0) as (d & w1 & Hloop & Hn & _).
  assert (Hget1 : http_get E (nreq w1) url = Raised e) by (by rewrite Hn).
  assert (Hturn := loop_body_scrape_failed E idx url d w1 e Hget1).
  exists d, w1. split; [done|]. split; [done|]. split; [done|].
  split; [apply trace_after_scrape_failed|]. split.
  - rewrite save_to_files_eq by done. fold w0. unfold urls.
    unfold bind at 1. rewrite for_enumerate_app. unfold bind at 1.
    rewrite Hloop. simpl. unfold bind at 1. fold idx.
    by rewrite Hturn.
  - destruct (save_to_files_run E urls w Hnpy)
      as (d' & w' & _ & _ & (evs & _ & _ & _ & _ & Hframe) & Hrun).
    rewrite Hrun. simpl.
    rewrite fs_finished_ne by apply webpage_file_not_csv.
    rewrite Hframe.
    + simpl. rewrite lookup_insert_ne; [done|].
      intros H. by apply (webpage_file_not_npy idx).
    + intros i u _ (Hu & (r & Hr) & _) Heq.
      apply webpage_file_inj in Heq. subst i.
      unfold urls, idx in Hu. rewrite list_lookup_middle in Hu by done.
      injection Hu as <-. unfold idx in Hr. congruence.
Qed.

Lemma failed_scrape_is_skipped_witness :
  http_get flaky_env (0 + length [page_url]) down_url = Raised ConnectionError
  ∧ fs (snd (save_to_files flaky_env [page_url; down_url; page_url] (fresh ∅)))
      !! py "data/webpage_1.txt" = None.
Proof.
  split; [reflexivity|].
  destruct (failed_scrape_is_skipped flaky_env [page_url] down_url [page_url]
              (fresh ∅) ConnectionError eq_refl eq_refl)
    as (d & w1 & _ & _ & _ & _ & _ & Hfs).
  exact Hfs.
Defined.

(** *** The pause *)

Lemma fetched_snoc E k urls url :
  fetched E k (urls ++ [url])
  = fetched E k urls
    + match http_get E (k + length urls) url with Ok _ => 1 | Raised _ => 0 end.
Proof.
  revert k. induction urls as [|u urls IH]; intros k; simpl.
  - replace (k + 0) with k by lia. lia.
  - rewrite IH. replace (S k + length urls) with (k + S (length urls)) by lia.
    lia.
Qed.

Lemma randint_value_3_7 (raw : N) : (3 ≤ randint_value raw 3 7 ≤ 7)%Z.
Proof.
  unfold randint_value.
  pose proof (Z.mod_pos_bound (Z.of_N raw) (7 - 3 + 1)) as H. lia.
Qed.


Lemma sleeps_snoc_slept E (evs others : list event) (n : nat) :
  sleeps others = [] →
  sleeps evs
  = map (fun j => randint_value (entropy E j) 3 7)
      (seq n (length (sleeps evs))) →
  let evs' :=
    evs ++ others
      ++ [Slept (randint_value (entropy E (n + length (sleeps evs))) 3 7)] in
  length (sleeps evs') = S (length (sleeps evs))
  ∧ sleeps evs'
    = map (fun j => randint_value (entropy E j) 3 7)
        (seq n (length (sleeps evs'))).
Proof.
  intros Ho Hs evs'.
  assert (Heq : sleeps evs'
                = sleeps evs
                  ++ [randint_value (entropy E (n + length (sleeps evs))) 3 7]).
  { unfold evs', sleeps. rewrite !omap_app. fold (sleeps others).
    by rewrite Ho. }
  assert (Hlen : length (sleeps evs') = S (length (sleeps evs))).
  { rewrite Heq, length_app. simpl. lia. }
  split; [done|]. rewrite Hlen, seq_S, map_app. simpl.
  by rewrite <- Hs.
Qed.

Lemma for_enumerate_sleeps (E : env) (urls : list str) (d : dict) (w : world) :
  ∃ d' w', for_enumerate E 0 urls d w = (Ok d', w')
           ∧ sleeps_inv E (nreq w) urls w (length urls) w'.
Proof.
  destruct (for_enumerate_rule E urls (nreq w)
              (fun k _ w' => sleeps_inv E (nreq w) urls w k w')) with
    (d := d) (w := w) as (d' & w' & Hloop & _ & Hinv).
  - intros idx url d1 w1 e Hlook Hn (evs & Htr & Hnd & Hs & Hlen) Hget.
    exists (evs ++ [Requested url; Printed (scrape_failed url e)]).
    assert (Hsl : sleeps (evs ++ [Requested url; Printed (scrape_failed url e)])
                  = sleeps evs).
    { unfold sleeps. rewrite omap_app. simpl. by rewrite app_nil_r. }
    rewrite Hsl. split; [|split; [|split]]; try done.
    + by rewrite trace_after_scrape_failed, Htr, <- app_assoc.
    + rewrite (take_S_r _ _ _ Hlook), fetched_snoc.
      rewrite length_take_le by (apply lookup_lt_Some in Hlook; lia).
      rewrite Hget. lia.
  - intros idx url d1 w1 resp Hlook Hn (evs & Htr & Hnd & Hs & Hlen) Hget Hopen _.
    destruct (sleeps_snoc_slept E evs
                [Requested url;
                 Wrote (webpage_file idx)
                   (TextFile (filtered_text (text_html resp)));
                 Printed (wrote_file (webpage_file idx))]
                (ndraw w) eq_refl Hs) as [Hl' Hs'].
    eexists. split; [|split; [|split]].
    + rewrite trace_after_saved, Htr, <- app_assoc, Hnd. reflexivity.
    + simpl in Hl'. simpl. rewrite Hl'. lia.
    + exact Hs'.
    + simpl in Hl'. simpl. rewrite Hl'.
      rewrite (take_S_r _ _ _ Hlook), fetched_snoc.
      rewrite length_take_le by (apply lookup_lt_Some in Hlook; lia).
      rewrite Hget. lia.
  - intros idx url d1 w1 resp e Hlook Hn (evs & Htr & Hnd & Hs & Hlen) Hget Hopen.
    destruct (sleeps_snoc_slept E evs
                [Requested url; Printed (write_failed (webpage_file idx) e)]
                (ndraw w) eq_refl Hs) as [Hl' Hs'].
    eexists. split; [|split; [|split]].
    + rewrite trace_after_write_failed, Htr, <- app_assoc, Hnd. reflexivity.
    + simpl in Hl'. simpl. rewrite Hl'. lia.
    + exact Hs'.
    + simpl in Hl'. simpl. rewrite Hl'.
      rewrite (take_S_r _ _ _ Hlook), fetched_snoc.
      rewrite length_take_le by (apply lookup_lt_Some in Hlook; lia).
      rewrite Hget. lia.
  - intros idx url d1 w1 resp e Hlook Hn (evs & Htr & Hnd & Hs & Hlen) Hget
      Hopen _.
    destruct (sleeps_snoc_slept E evs
                [Requested url; Partial (webpage_file idx) (TextFile []);
                 Printed (write_failed (webpage_file idx) e)]
                (ndraw w) eq_refl Hs) as [Hl' Hs'].
    eexists. split; [|split; [|split]].
    + rewrite trace_after_encode_failed, Htr, <- app_assoc, Hnd. reflexivity.
    + simpl in Hl'. simpl. rewrite Hl'. lia.
    + exact Hs'.
    + simpl in Hl'. simpl. rewrite Hl'.
      rewrite (take_S_r _ _ _ Hlook), fetched_snoc.
      rewrite length_take_le by (apply lookup_lt_Some in Hlook; lia).
      rewrite Hget. lia.
  - reflexivity.
  - exists []. simpl. rewrite app_nil_r. repeat split; lia.
  - by exists d', w'.
Qed.


(** *** The mapping *)

Lemma dict_set_keys (d : dict) (k v : str) :
  (dict_set d k v).*1 = if decide (k ∈ d.*1) then d.*1 else d.*1 ++ [k].
Proof.
  induction d as [|[k' v'] d IH].
  - change (([] : dict).*1) with (@nil str).
    rewrite decide_False by apply not_elem_of_nil. done.
  - change (((k', v') :: d).*1) with (k' :: d.*1).
    change (dict_set ((k', v') :: d) k v)
      with (if decide (k' = k) then (k', v) :: d
            else (k', v') :: dict_set d k v).
    destruct (decide (k' = k)) as [->|Hne].
    + rewrite decide_True by left. done.
    + change (((k', v') :: dict_set d k v).*1)
        with (k' :: (dict_set d k v).*1).
      rewrite IH. destruct (decide (k ∈ d.*1)) as [Hin|Hnin].
      * rewrite decide_True by (by right). done.
      * rewrite decide_False; [done|].
        intros H. apply elem_of_cons in H as [->|H]; done.
Qed.

Lemma dict_set_NoDup (d : dict) (k v : str) :
  NoDup d.*1 → NoDup (dict_set d k v).*1.
Proof.
  intros Hd. rewrite dict_set_keys. destruct (decide (k ∈ d.*1)); [done|].
  apply NoDup_app. split; [done|]. split.
  - intros x Hx Hx'. apply elem_of_cons in Hx' as [->|Hx']; [done|].
    by apply elem_of_nil in Hx'.
  - apply NoDup_singleton.
Qed.

Lemma elem_of_dict_set (d : dict) (k v k' v' : str) :
  NoDup d.*1 →
  (k', v') ∈ dict_set d k v ↔ (k' = k ∧ v' = v) ∨ (k' ≠ k ∧ (k', v') ∈ d).
Proof.
  induction d as [|[k0 v0] d IH]; intros Hd; simpl.
  - rewrite elem_of_cons, elem_of_nil. split.
    + intros [Heq|[]]. injection Heq as -> ->. by left.
    + intros [[-> ->]|[_ H]]; [by left | by apply elem_of_nil in H].
  - apply NoDup_cons in Hd as [Hk0 Hd]. specialize (IH Hd).
    destruct (decide (k0 = k)) as [->|Hne].
    + rewrite !elem_of_cons. split.
      * intros [Heq|Hin]; [injection Heq as -> ->; by left|].
        right. split; [|by right]. intros ->. apply Hk0.
        apply list_elem_of_fmap. by exists (k, v').
      * intros [[-> ->]|[Hk [Heq|Hin]]]; [by left| |by right].
        injection Heq as -> ->. done.
    + rewrite !elem_of_cons, IH. split.
      * intros [Heq|[?|[? ?]]]; [|by left|right; split; [done | by right]].
        injection Heq as -> ->. right. split; [done | by left].
      * intros [?|[Hk [Heq|Hin]]]; [right; by left | by left |].
        right. right. done.
Qed.

Lemma last_saved_skip E n0 urls k u f :
  (∀ u' t', ¬ saved_at E n0 urls k u' t') →
  last_saved E n0 urls (S k) u f ↔ last_saved E n0 urls k u f.
Proof.
  intros Hnone. split.
  - intros (i & t & Hi & Hs & Hf & Hlast).
    destruct (decide (i = k)) as [->|Hne]; [by destruct (Hnone u t)|].
    exists i, t. split; [lia|]. split; [done|]. split; [done|].
    intros j t' Hj. apply Hlast. lia.
  - intros (i & t & Hi & Hs & Hf & Hlast).
    exists i, t. split; [lia|]. split; [done|]. split; [done|].
    intros j t' Hj. destruct (decide (j = k)) as [->|Hne]; [apply Hnone|].
    apply Hlast. lia.
Qed.

Lemma last_saved_now E n0 urls k url t0 u f :
  saved_at E n0 urls k url t0 →
  last_saved E n0 urls (S k) u f
  ↔ (u = url ∧ f = webpage_file k) ∨ (u ≠ url ∧ last_saved E n0 urls k u f).
Proof.
  intros Hnow. split.
  - intros (i & t & Hi & Hs & Hf & Hlast).
    destruct (decide (i = k)) as [->|Hne].
    + left. split; [|done]. destruct Hs as (Hu & _), Hnow as (Hu' & _). congruence.
    + right. split.
      * intros ->. apply (Hlast k t0); [lia | done].
      * exists i, t. split; [lia|]. split; [done|]. split; [done|].
        intros j t' Hj. apply Hlast. lia.
  - intros [[-> ->]|[Hne (i & t & Hi & Hs & Hf & Hlast)]].
    + exists k, t0. split; [lia|]. split; [done|]. split; [done|].
      intros j t' Hj. lia.
    + exists i, t. split; [lia|]. split; [done|]. split; [done|].
      intros j t' Hj. destruct (decide (j = k)) as [->|Hjk].
      * intros (Hu & _). destruct Hnow as (Hu' & _). congruence.
      * apply Hlast. lia.
Qed.

Lemma for_enumerate_mapping (E : env) (urls : list str) (w : world) :
  ∃ d' w', for_enumerate E 0 urls [] w = (Ok d', w')
           ∧ mapping_inv E (nreq w) urls (length urls) d'.
Proof.
  destruct (for_enumerate_rule E urls (nreq w)
              (fun k d _ => mapping_inv E (nreq w) urls k d)) with
    (d := @nil (str * str)) (w := w) as (d' & w' & Hloop & _ & Hinv).
  - intros idx url d w1 e Hlook _ [Hnd Hd] Hget. split; [done|].
    intros u f. rewrite Hd. symmetry. apply last_saved_skip.
    intros u' t' (Hu & (r & Hr & _) & _).
    rewrite Hlook in Hu. injection Hu as <-. congruence.
  - intros idx url d w1 resp Hlook _ [Hnd Hd] Hget Hopen Henc.
    split; [by apply dict_set_NoDup|].
    intros u f. rewrite elem_of_dict_set by done.
    rewrite (last_saved_now E (nreq w) urls idx url
               (filtered_text (text_html resp))).
    + by rewrite Hd.
    + split; [done|]. split; [by exists resp | done].
  - intros idx url d w1 resp e Hlook _ [Hnd Hd] Hget Hopen. split; [done|].
    intros u f. rewrite Hd. symmetry. apply last_saved_skip.
    intros u' t' (_ & _ & Ho & _). congruence.
  - intros idx url d w1 resp e Hlook _ [Hnd Hd] Hget Hopen Henc.
    split; [done|].
    intros u f. rewrite Hd. symmetry. apply last_saved_skip.
    intros u' t' (Hu & (r & Hr & Ht) & _ & Hgood).
    rewrite Hlook in Hu. injection Hu as <-.
    assert (r = resp) as -> by congruence. subst t'. congruence.
  - reflexivity.
  - split; [constructor|]. intros u f. split.
    + intros H. by apply elem_of_nil in H.
    + intros (i & t & Hi & _). lia.
  - by exists d', w'.
Qed.

(** C3, as stated, fails: a URL that was scraped and whose text file could
    not be written has no row. *)
Lemma scraped_url_without_row :
  ¬ maps_every_scraped_url readonly_env [page_url] (fresh ∅).
Proof.
  intros (rows & Hcsv & Hrows).
  assert (H : fs (snd (save_to_files readonly_env [page_url] (fresh ∅)))
                !! csv_path
              = Some (CsvFile [[py "URL"; py "Document"]]))
    by (vm_compute; reflexivity).
  rewrite H in Hcsv. injection Hcsv as <-.
  destruct (proj2 (Hrows page_url)) as (f & Hf).
  - exists 0. split; [reflexivity|]. by exists sample_response.
  - by apply elem_of_nil in Hf.
Qed.

(** C3, amended. When the array file and the mapping file are written (the
    two can be opened and the saved URLs can be encoded), the call returns
    and the mapping file holds the header and then one row (url, filename)
    for exactly the URLs of the list that were scraped and whose text file
    was written (opened, and the text encoded): no URL twice, the filename
    being the file written at the last such position of the URL; and every
    file written at such a position holds the text extracted there. *)
Theorem mapping_file_rows (E : env) (urls : list str) (w : world) :
  open_error E npy_path = None →
  open_error E csv_path = None →
  (∀ i u t, saved_at E (nreq w) urls i u t → encode_error u = None) →
  ∃ w' d,
    save_to_files E urls w = (Ok tt, w')
    ∧ fs w' !! csv_path
      = Some (CsvFile ([py "URL"; py "Document"]
                         :: map (fun item => [item.1; item.2]) d))
    ∧ NoDup d.*1
    ∧ (∀ u f, (u, f) ∈ d ↔
         ∃ i t, saved_at E (nreq w) urls i u t ∧ f = webpage_file i
                ∧ ∀ j t', i < j → ¬ saved_at E (nreq w) urls j u t')
    ∧ (∀ i u t, saved_at E (nreq w) urls i u t →
         fs w' !! webpage_file i = Some (TextFile t)).
Proof.
  intros Hnpy Hcsv Hurls.
  destruct (save_to_files_run E urls w Hnpy)
    as (d & w1 & Hloop & _ & (evs & _ & _ & Hcompl & _) & Hrun).
  destruct (for_enumerate_mapping E urls (written npy_path (NpyFile urls) w))
    as (d' & w1' & Hloop' & Hnd & Hd).
  rewrite Hloop in Hloop'. injection Hloop' as <- <-. simpl in Hd.
  assert (Hfin : finished E d w1 = written csv_path (CsvFile (csv_rows d)) w1).
  { apply finished_written; [done|]. apply Forall_forall.
    intros [u f] Hin. apply Hd in Hin as (i & t & _ & Hs & -> & _). split.
    - by apply (Hurls i u t).
    - apply encode_error_None, webpage_file_encodable. }
  exists (finished E d w1), d. split; [done|]. split; [|split; [done|split]].
  - rewrite Hfin. simpl. by rewrite lookup_insert_eq.
  - intros u f. rewrite Hd. split.
    + intros (i & t & Hi & Hs & Hf & Hlast). exists i, t.
      split; [done|]. split; [done|]. intros j t' Hj Hs'.
      apply (Hlast j t'); [|done]. apply saved_at_lt in Hs'. lia.
    + intros (i & t & Hs & Hf & Hlast). exists i, t.
      split; [by eapply saved_at_lt|]. split; [done|]. split; [done|].
      intros j t' Hj. apply Hlast. lia.
  - intros i u t Hs. rewrite fs_finished_ne by apply webpage_file_not_csv.
    by apply (Hcompl i u t (saved_at_lt _ _ _ _ _ _ Hs)).
Qed.

Lemma mapping_file_rows_witness :
  open_error flaky_env npy_path = None
  ∧ open_error flaky_env csv_path = None
  ∧ ∃ d, fs (snd (save_to_files flaky_env [page_url; down_url; page_url]
                    (fresh ∅))) !! csv_path
         = Some (CsvFile ([py "URL"; py "Document"]
                            :: map (fun item => [item.1; item.2]) d))
         ∧ (page_url, py "data/webpage_2.txt") ∈ d
         ∧ ∀ f, (down_url, f) ∉ d.
Proof.
  split; [reflexivity|]. split; [reflexivity|].
  destruct (mapping_file_rows flaky_env [page_url; down_url; page_url]
              (fresh ∅) eq_refl eq_refl) as (w' & d & Hrun & Hfs & _ & Hd & _).
  { intros i u t (Hu & _).
    do 3 (destruct i as [|i]; [injection Hu as <-; reflexivity|]).
    discriminate Hu. }
  exists d. rewrite Hrun. split; [exact Hfs|]. split.
  - apply Hd. exists 2, (filtered_text sample_page).
    split; [|split; [reflexivity|]].
    + split; [reflexivity|]. split; [|split; reflexivity].
      exists sample_response. split; reflexivity.
    + intros j t' Hj (Hu & _). simpl in Hu.
      do 3 (destruct j as [|j]; [lia|]). discriminate Hu.
  - intros f Hin. apply Hd in Hin as (i & t & (Hu & (r & Hr & _) & _) & _).
    simpl in Hr. destruct (decide (down_url = down_url)); [discriminate Hr|done].
Defined.

(** ** Worked examples *)

Example split_keeps_empty_lines :
  split newline (py "a" ++ [newline; newline] ++ py "b" ++ [newline])
  = [py "a"; []; py "b"; []].
Proof. reflexivity. Qed.

Example split_ws_drops_blanks :
  split_ws ([space] ++ py "two" ++ [160%N; 9%N] ++ py "words" ++ [newline])
  = [py "two"; py "words"].
Proof. reflexivity. Qed.

Example join_of_nothing : join [space] [] = [] ∧ join [space] [py "a"] = py "a".
Proof. split; reflexivity. Qed.

Example webpage_file_12 : webpage_file 12 = py "data/webpage_12.txt".
Proof. vm_compute. reflexivity. Qed.

(** A [loc] element without text makes the membership test of the
    comprehension raise. *)
Example empty_loc_raises :
  fst (get_urls_in_sitemap (serving (urlset [url_elem [Elem loc_tag None []]]))
         sitemap_xml (fresh ∅))
  = Raised TypeError_not_iterable.
Proof. reflexivity. Qed.

(** A whole call on two URLs, the second of which cannot be fetched. *)
Example save_to_files_trace :
  trace (snd (save_to_files flaky_env [page_url; down_url] (fresh ∅)))
  = [Wrote npy_path (NpyFile [page_url; down_url]);
     Requested page_url;
     Wrote (py "data/webpage_0.txt")
       (TextFile (py "Title one two three four five six seven eight nine ten"));
     Printed (py "Successfully wrote file: data/webpage_0.txt");
     Slept 3;
     Requested down_url;
     Printed
       (py "Failed to scrape webpage: https://example.org/down, due to: Max retries exceeded");
     Wrote csv_path
       (CsvFile [[py "URL"; py "Document"];
                 [page_url; py "data/webpage_0.txt"]])].
Proof. vm_compute. reflexivity. Qed.

(** * Further properties *)

(** ** The words of the extracted text *)

Lemma split_ws_scan_app (cur a b : str) (c : char) :
  isspace c = true →
  split_ws_scan cur (a ++ c :: b) = split_ws_scan cur a ++ split_ws_scan [] b.
Proof.
  intros Hc. revert cur. induction a as [|x a IH]; intros cur; simpl.
  - by rewrite Hc.
  - destruct (isspace x); [by rewrite IH, app_assoc | apply IH].
Qed.

Lemma split_ws_join (c : char) (ls : list str) :
  isspace c = true →
  split_ws (join [c] ls) = concat (map split_ws ls).
Proof.
  intros Hc. induction ls as [|p [|q rest] IH].
  - reflexivity.
  - simpl. by rewrite app_nil_r.
  - rewrite join_cons. change (p ++ [c] ++ join [c] (q :: rest))
      with (p ++ c :: join [c] (q :: rest)).
    unfold split_ws at 1. rewrite split_ws_scan_app by done.
    fold (split_ws p). fold (split_ws (join [c] (q :: rest))).
    by rewrite IH.
Qed.

Lemma concat_filter_sublist {A B} (f : A → list B) (P : A → Prop)
    `{∀ x, Decision (P x)} (l : list A) :
  concat (map f (filter P l)) `sublist_of` concat (map f l).
Proof.
  induction l as [|x l IH]; [done|].
  rewrite filter_cons. destruct (decide (P x)); simpl.
  - by apply sublist_app.
  - by apply sublist_inserts_l.
Qed.

Lemma split_ws_filtered_text (page : soup) :
  split_ws (filtered_text page)
  = concat (map split_ws
              (filter (fun l => 10 ≤ length (split_ws l))
                 (split newline
                    (join [space] (map get_text (relevant_tags page)))))).
Proof. unfold filtered_text. apply (split_ws_join space). reflexivity. Qed.

(** X1. Filtering drops whole lines and changes no word: the words of the
    extracted text are the words of the kept lines, in order, hence a
    subsequence of the words of the text of the selected elements. *)
Theorem extracted_words_are_page_words (page : soup) :
  let text := join [space] (map get_text (relevant_tags page)) in
  split_ws (filtered_text page)
  = concat (map split_ws
              (filter (fun l => 10 ≤ length (split_ws l)) (split newline text)))
  ∧ split_ws (filtered_text page) `sublist_of` split_ws text.
Proof.
  intros text. split; [apply split_ws_filtered_text|].
  rewrite split_ws_filtered_text. fold text.
  assert (Htext : split_ws text
                  = concat (map split_ws (split newline text))).
  { rewrite <- (split_ws_join newline) by reflexivity.
    unfold split. by rewrite join_split_scan. }
  rewrite Htext. apply concat_filter_sublist.
Qed.

Lemma filter_nil_Forall {A} (P : A → Prop) `{∀ x, Decision (P x)}
    (l : list A) :
  filter P l = [] ↔ Forall (fun x => ¬ P x) l.
Proof.
  induction l as [|x l IH]; [by split; [constructor|]|].
  rewrite filter_cons, Forall_cons. destruct (decide (P x)).
  - split; [done | by intros [? _]].
  - rewrite IH. tauto.
Qed.

(** X2. The extracted text is empty exactly when no line of the text of the
    selected elements has 10 words; when it is not empty it has at least 10
    words. *)
Theorem extracted_text_empty_or_ten_words (page : soup) :
  let text := join [space] (map get_text (relevant_tags page)) in
  (filtered_text page = []
   ↔ Forall (fun l => word_count l < 10) (split newline text))
  ∧ (filtered_text page = [] ∨ 10 ≤ word_count (filtered_text page)).
Proof.
  intros text. pose proof (split_ws_filtered_text page) as Hwords.
  fold text in Hwords.
  assert (Hjoin : filtered_text page
                  = join [space]
                      (filter (fun l => 10 ≤ length (split_ws l))
                         (split newline text))) by reflexivity.
  destruct (filter (fun l => 10 ≤ length (split_ws l)) (split newline text))
    as [|l kept] eqn:Hkept.
  - split; [|by left]. split; [|done]. intros _.
    apply filter_nil_Forall in Hkept.
    eapply Forall_impl; [exact Hkept|]. intros x Hx. simpl in Hx.
    rewrite <- length_split_ws. lia.
  - assert (Hl : 10 ≤ length (split_ws l)).
    { assert (Hin : l ∈ filter (fun l => 10 ≤ length (split_ws l))
                          (split newline text))
        by (rewrite Hkept; left).
      by apply list_elem_of_filter in Hin as [? _]. }
    assert (Hten : 10 ≤ word_count (filtered_text page)).
    { rewrite <- length_split_ws, Hwords. simpl. rewrite length_app. lia. }
    split; [|by right]. split.
    + intros Hnil. rewrite Hnil in Hten.
      change (word_count []) with 0 in Hten. lia.
    + intros Hall. exfalso.
      assert (Hin : l ∈ split newline text).
      { assert (Hin : l ∈ filter (fun l => 10 ≤ length (split_ws l))
                            (split newline text))
          by (rewrite Hkept; left).
        by apply list_elem_of_filter in Hin as [_ ?]. }
      rewrite Forall_forall in Hall. specialize (Hall l Hin).
      rewrite <- length_split_ws in Hall. lia.
Qed.

(** ** The sitemap reader: errors and results *)

Lemma loc_values_raises (urls : list Element) (e : exn) :
  loc_values urls = Raised e
  ↔ e = TypeError_not_iterable
    ∧ ∃ u loc, u ∈ urls ∧ find loc_tag u = Some loc ∧ text loc = None.
Proof.
  induction urls as [|u urls IH]; simpl.
  - split; [done|]. intros (_ & u & loc & Hu & _). by apply elem_of_nil in Hu.
  - assert (Hrest : (e = TypeError_not_iterable
                     ∧ ∃ u' loc, u' ∈ urls ∧ find loc_tag u' = Some loc
                                 ∧ text loc = None)
                    → e = TypeError_not_iterable
                      ∧ ∃ u' loc, u' ∈ u :: urls ∧ find loc_tag u' = Some loc
                                  ∧ text loc = None).
    { intros (He & u' & loc & Hu' & H). split; [done|].
      exists u', loc. split; [by right | done]. }
    destruct (find loc_tag u) as [loc|] eqn:Hfind.
    + destruct (text loc) as [t|] eqn:Ht.
      * assert (Hback : (e = TypeError_not_iterable
                         ∧ ∃ u' loc', u' ∈ u :: urls
                             ∧ find loc_tag u' = Some loc' ∧ text loc' = None)
                        → loc_values urls = Raised e).
        { intros (He & u' & loc' & Hu' & Hf & Hn). apply IH. split; [done|].
          apply elem_of_cons in Hu' as [->|Hu']; [congruence|].
          by exists u', loc'. }
        destruct (contains (py "/search") t).
        -- split; [intros H; apply Hrest; by apply IH | exact Hback].
        -- destruct (loc_values urls) as [l|e'] eqn:Hl.
           ++ split; [done|]. intros H. by apply Hback in H.
           ++ split.
              ** intros [= <-]. apply Hrest. by apply IH.
              ** intros H. by apply Hback in H.
      * split.
        -- intros [= <-]. split; [done|]. exists u, loc. split; [left | done].
        -- by intros [-> _].
    + split; [intros H; apply Hrest; by apply IH|].
      intros (He & u' & loc' & Hu' & Hf & Hn). apply IH. split; [done|].
      apply elem_of_cons in Hu' as [->|Hu']; [congruence|].
      by exists u', loc'.
Qed.

Lemma loc_values_returns (urls : list Element) (l : list str) :
  loc_values urls = Ok l →
  l = filter (fun v => ¬ substring (py "/search") v)
        (omap first_loc_text urls).
Proof.
  intros Hl. rewrite loc_values_ok in Hl; [by injection Hl|].
  intros u loc Hu Hfind Hnone.
  assert (Hr : loc_values urls = Raised TypeError_not_iterable).
  { apply loc_values_raises. split; [done|]. by exists u, loc. }
  congruence.
Qed.

(** X3. [get_urls_in_sitemap] raises in three cases and no other: the
    request raises, the XML parser raises (the error is passed on as it
    is), or some [url] element has a first [loc] child without text, which
    gives the TypeError of the membership test. *)
Theorem get_urls_in_sitemap_raises (E : env) (sitemap_url : str) (w : world)
    (e : exn) :
  fst (get_urls_in_sitemap E sitemap_url w) = Raised e
  ↔ http_get E (nreq w) sitemap_url = Raised e
    ∨ (∃ resp, http_get E (nreq w) sitemap_url = Ok resp
               ∧ content_xml resp = Raised e)
    ∨ (∃ resp root u loc,
         http_get E (nreq w) sitemap_url = Ok resp
         ∧ content_xml resp = Ok root
         ∧ u ∈ findall url_tag root
         ∧ find loc_tag u = Some loc ∧ text loc = None
         ∧ e = TypeError_not_iterable).
Proof.
  unfold get_urls_in_sitemap, bind, requests_get, lift.
  destruct (http_get E (nreq w) sitemap_url) as [resp|e0] eqn:Hget.
  - destruct (content_xml resp) as [root|e1] eqn:Hxml; simpl.
    + rewrite loc_values_raises. split.
      * intros (He & u & loc & Hu & Hf & Hn). right. right.
        by exists resp, root, u, loc.
      * intros [?|[(r & ? & ?)|(r & root' & u & loc & Hr & Hx & Hu & Hf & Hn & He)]];
          [done| |].
        -- injection H as <-. congruence.
        -- injection Hr as <-. rewrite Hxml in Hx. injection Hx as <-.
           split; [done|]. by exists u, loc.
    + split.
      * intros [= <-]. right. left. by exists resp.
      * intros [?|[(r & Hr & Hx)|(r & root' & u & loc & Hr & Hx & _)]];
          [done| |].
        -- injection Hr as <-. congruence.
        -- injection Hr as <-. congruence.
  - simpl. split.
    + intros [= <-]. by left.
    + intros [[= <-]|[(r & ? & _)|(r & root' & u & loc & ? & _)]]; done.
Qed.

(** X4. Whenever [get_urls_in_sitemap] returns a list, it has sent exactly
    one request, and the list is the text of the first [loc] child of the
    [url] elements in document order less the values with "/search": no
    value of the list contains "/search", and each one is carried by a
    [url] element below the root. *)
Theorem get_urls_in_sitemap_result (E : env) (sitemap_url : str) (w w' : world)
    (l : list str) :
  get_urls_in_sitemap E sitemap_url w = (Ok l, w') →
  w' = requested sitemap_url w
  ∧ ∃ resp root,
      http_get E (nreq w) sitemap_url = Ok resp
      ∧ content_xml resp = Ok root
      ∧ l = filter (fun v => ¬ substring (py "/search") v)
              (omap first_loc_text (findall url_tag root))
      ∧ ∀ v, v ∈ l →
          ¬ substring (py "/search") v
          ∧ ∃ u, under u root ∧ tag u = url_tag ∧ first_loc_text u = Some v.
Proof.
  unfold get_urls_in_sitemap, bind, requests_get, lift.
  destruct (http_get E (nreq w) sitemap_url) as [resp|e0] eqn:Hget; [|done].
  destruct (content_xml resp) as [root|e1] eqn:Hxml; [|done].
  intros [= Hl <-]. split; [done|]. exists resp, root.
  split; [done|]. split; [done|].
  apply loc_values_returns in Hl. split; [done|].
  intros v Hv. rewrite Hl in Hv.
  apply list_elem_of_filter in Hv as [Hno Hv]. split; [done|].
  apply list_elem_of_omap in Hv as (u & Hu & Hfirst).
  exists u. apply findall_spec in Hu as [? ?]. done.
Qed.

Lemma get_urls_in_sitemap_result_witness :
  get_urls_in_sitemap (serving sample_sitemap) sitemap_xml (fresh ∅)
    = (Ok [py "https://example.org/"; py "https://example.org/about"],
       requested sitemap_xml (fresh ∅))
  ∧ ¬ substring (py "/search") (py "https://example.org/about").
Proof.
  split; [reflexivity|].
  destruct (get_urls_in_sitemap_result (serving sample_sitemap) sitemap_xml
              (fresh ∅) (requested sitemap_xml (fresh ∅))
              [py "https://example.org/"; py "https://example.org/about"]
              eq_refl) as (_ & resp & root & _ & _ & _ & Hall).
  apply Hall. right. left.
Defined.

(** ** The persister: errors, requests, files *)

(** X5. [save_to_files] raises in one case only: the array file cannot be
    written; it then raises that error at once, with nothing requested,
    printed or written.  In every other case it returns, whatever requests
    and later writes fail. *)
Theorem save_to_files_raises_only_on_array (E : env) (urls : list str)
    (w : world) :
  match open_error E npy_path with
  | Some e => save_to_files E urls w = (Raised e, w)
  | None => fst (save_to_files E urls w) = Ok tt
  end.
Proof.
  destruct (open_error E npy_path) as [e|] eqn:Hnpy.
  - by apply save_to_files_raises.
  - destruct (save_to_files_run E urls w Hnpy) as (d & w1 & _ & _ & _ & Hrun).
    by rewrite Hrun.
Qed.

Lemma for_enumerate_requests (E : env) (urls : list str) (d : dict) (w : world) :
  ∃ d' w', for_enumerate E 0 urls d w = (Ok d', w')
           ∧ nreq w' = nreq w + length urls
           ∧ requests_inv urls w (length urls) w'.
Proof.
  apply (for_enumerate_rule E urls (nreq w)
           (fun k _ w' => requests_inv urls w k w')).
  - intros idx url d1 w1 e Hlook _ (evs & Htr & Hreq) _.
    exists (evs ++ [Requested url; Printed (scrape_failed url e)]). split.
    + by rewrite trace_after_scrape_failed, Htr, <- app_assoc.
    + unfold requests. rewrite omap_app. fold (requests evs).
      by rewrite Hreq, (take_S_r _ _ _ Hlook).
  - intros idx url d1 w1 resp Hlook _ (evs & Htr & Hreq) _ _ _.
    eexists. split.
    + rewrite trace_after_saved, Htr, <- app_assoc. reflexivity.
    + unfold requests. rewrite omap_app. fold (requests evs).
      by rewrite Hreq, (take_S_r _ _ _ Hlook).
  - intros idx url d1 w1 resp e Hlook _ (evs & Htr & Hreq) _ _.
    eexists. split.
    + rewrite trace_after_write_failed, Htr, <- app_assoc. reflexivity.
    + unfold requests. rewrite omap_app. fold (requests evs).
      by rewrite Hreq, (take_S_r _ _ _ Hlook).
  - intros idx url d1 w1 resp e Hlook _ (evs & Htr & Hreq) _ _ _.
    eexists. split.
    + rewrite trace_after_encode_failed, Htr, <- app_assoc. reflexivity.
    + unfold requests. rewrite omap_app. fold (requests evs).
      by rewrite Hreq, (take_S_r _ _ _ Hlook).
  - reflexivity.
  - exists []. by rewrite app_nil_r.
Qed.

(** X6. When the array file can be written, the call requests every URL of
    the list exactly once, in list order, whatever the answers are. *)
Theorem every_url_requested_once (E : env) (urls : list str) (w : world) :
  open_error E npy_path = None →
  ∃ evs,
    trace (snd (save_to_files E urls w)) = trace w ++ evs
    ∧ requests evs = urls
    ∧ nreq (snd (save_to_files E urls w)) = nreq w + length urls.
Proof.
  intros Hnpy. set (w0 := written npy_path (NpyFile urls) w).
  destruct (for_enumerate_requests E urls [] w0)
    as (d & w1 & Hloop & Hn & (evs & Htr & Hreq)).
  destruct (trace_finished E d w1) as (fin & Hfin & _ & _ & Hnot).
  assert (Hrun : save_to_files E urls w = (Ok tt, finished E d w1)).
  { rewrite save_to_files_eq by done. unfold bind. fold w0. rewrite Hloop.
    apply write_mapping_eq. }
  exists (Wrote npy_path (NpyFile urls) :: evs ++ fin).
  rewrite Hrun. simpl. split; [|split].
  - rewrite Hfin, Htr. simpl. by rewrite <- !app_assoc.
  - unfold requests. simpl. rewrite omap_app. fold (requests evs).
    fold (requests fin). by rewrite Hnot, app_nil_r, Hreq, firstn_all.
  - change (nreq w) with (nreq w0). rewrite <- Hn.
    unfold finished. destruct (open_error E csv_path); [done|].
    by destruct (writerows (csv_rows d)) as [kept [e|]].
Qed.

Lemma every_url_requested_once_witness :
  open_error flaky_env npy_path = None
  ∧ nreq (snd (save_to_files flaky_env [page_url; down_url; page_url]
                 (fresh ∅))) = 3.
Proof.
  split; [reflexivity|].
  destruct (every_url_requested_once flaky_env [page_url; down_url; page_url]
              (fresh ∅) eq_refl) as (evs & _ & _ & Hn).
  exact Hn.
Defined.

(** X7. When the mapping file cannot be opened the call still returns: its
    last act is to print "Failed to write URL to file map, due to:
    <str(e)>", the mapping file is left as it was, and the text files
    written by the loop are all there. *)
Theorem mapping_write_failure_is_reported (E : env) (urls : list str)
    (w : world) (e : exn) :
  open_error E npy_path = None →
  open_error E csv_path = Some e →
  ∃ w' evs,
    save_to_files E urls w = (Ok tt, w')
    ∧ trace w' = trace w ++ evs
                   ++ [Printed (py "Failed to write URL to file map, due to: "
                                  ++ exn_str e)]
    ∧ fs w' !! csv_path = fs w !! csv_path
    ∧ ∀ i u t, saved_at E (nreq w) urls i u t →
        fs w' !! webpage_file i = Some (TextFile t).
Proof.
  intros Hnpy Hcsv.
  destruct (save_to_files_run E urls w Hnpy)
    as (d & w1 & _ & _ & (evs & Htr & _ & Hcompl & _ & Hframe) & Hrun).
  assert (Hfin : finished E d w1 = log (Printed (map_failed e)) w1).
  { unfold finished. by rewrite Hcsv. }
  rewrite Hfin in Hrun.
  exists (log (Printed (map_failed e)) w1),
    (Wrote npy_path (NpyFile urls) :: evs).
  split; [done|]. split; [|split].
  - simpl. rewrite Htr. simpl. by rewrite <- !app_assoc.
  - simpl. rewrite Hframe.
    + simpl. rewrite lookup_insert_ne; [done|]. intros H. by apply csv_not_npy.
    + intros i u _ _ H. by apply (webpage_file_not_csv i).
  - intros i u t Hs. simpl.
    by apply (Hcompl i u t (saved_at_lt _ _ _ _ _ _ Hs)).
Qed.

Lemma mapping_write_failure_is_reported_witness :
  open_error no_csv_env csv_path = Some PermissionError
  ∧ fs (snd (save_to_files no_csv_env [page_url] (fresh ∅))) !! csv_path = None
  ∧ fs (snd (save_to_files no_csv_env [page_url] (fresh ∅)))
      !! py "data/webpage_0.txt"
    = Some (TextFile
              (py "Title one two three four five six seven eight nine ten")).
Proof.
  split; [reflexivity|].
  destruct (mapping_write_failure_is_reported no_csv_env [page_url] (fresh ∅)
              PermissionError eq_refl eq_refl)
    as (w' & evs & Hrun & _ & Hcsv & Hfiles).
  rewrite Hrun. simpl. split; [exact Hcsv|].
  apply (Hfiles 0 page_url). split; [reflexivity|].
  split; [|split; reflexivity].
  exists sample_response. split; reflexivity.
Defined.

(** X8. The call writes nowhere else: a path that is neither the array
    file, nor the mapping file, nor the text file of a position of the list
    holds after the call what it held before. *)
Theorem other_files_untouched (E : env) (urls : list str) (w : world)
    (path : str) :
  path ≠ npy_path →
  path ≠ csv_path →
  (∀ i, i < length urls → path ≠ webpage_file i) →
  fs (snd (save_to_files E urls w)) !! path = fs w !! path.
Proof.
  intros Hn Hc Hw. destruct (open_error E npy_path) as [e|] eqn:Hnpy.
  - by rewrite (save_to_files_raises E urls w e Hnpy).
  - destruct (save_to_files_run E urls w Hnpy)
      as (d & w1 & _ & _ & (evs & _ & _ & _ & _ & Hframe) & Hrun).
    rewrite Hrun. simpl. rewrite fs_finished_ne by done. rewrite Hframe.
    + simpl. by rewrite lookup_insert_ne.
    + intros i u Hi _. by apply Hw.
Qed.

Lemma other_files_untouched_witness :
  py "data/notes.txt" ≠ npy_path
  ∧ fs (snd (save_to_files flaky_env [page_url; down_url]
               (fresh {[ py "data/notes.txt" := TextFile (py "keep") ]})))
      !! py "data/notes.txt"
    = Some (TextFile (py "keep")).
Proof.
  split; [discriminate|].
  rewrite (other_files_untouched flaky_env [page_url; down_url]
             (fresh {[ py "data/notes.txt" := TextFile (py "keep") ]})
             (py "data/notes.txt")).
  - reflexivity.
  - discriminate.
  - discriminate.
  - intros i Hi. simpl in Hi.
    destruct i as [|[|i]]; [discriminate | discriminate | lia].
Defined.

Lemma total_bounds (l : list Z) :
  Forall (fun s => (3 ≤ s ≤ 7)%Z) l →
  (3 * Z.of_nat (length l) ≤ total l ≤ 7 * Z.of_nat (length l))%Z.
Proof.
  induction 1 as [|s l Hs _ IH]; simpl; [lia|].
  unfold total in *. simpl. lia.
Qed.

(** X9. When the array file can be written, the pauses of a call add up to
    at least 3 and at most 7 seconds for each URL that was fetched. *)
Theorem total_sleep_bounds (E : env) (urls : list str) (w : world) :
  open_error E npy_path = None →
  ∃ evs,
    trace (snd (save_to_files E urls w)) = trace w ++ evs
    ∧ (3 * Z.of_nat (fetched E (nreq w) urls) ≤ total (sleeps evs)
       ≤ 7 * Z.of_nat (fetched E (nreq w) urls))%Z.
Proof.
  intros Hnpy. set (w0 := written npy_path (NpyFile urls) w).
  destruct (for_enumerate_sleeps E urls [] w0)
    as (d & w1 & Hloop & (evs & Htr & _ & Hs & Hlen)).
  destruct (trace_finished E d w1) as (fin & Hfin & _ & Hnot & _).
  assert (Hrun : save_to_files E urls w = (Ok tt, finished E d w1)).
  { rewrite save_to_files_eq by done. unfold bind. fold w0. rewrite Hloop.
    apply write_mapping_eq. }
  assert (Hsl : sleeps (Wrote npy_path (NpyFile urls) :: evs ++ fin)
                = sleeps evs).
  { unfold sleeps. simpl. rewrite omap_app. fold (sleeps fin).
    by rewrite Hnot, app_nil_r. }
  exists (Wrote npy_path (NpyFile urls) :: evs ++ fin). split.
  - rewrite Hrun. simpl. rewrite Hfin, Htr. simpl. by rewrite <- !app_assoc.
  - rewrite Hsl. rewrite firstn_all in Hlen. simpl in Hlen. rewrite <- Hlen.
    apply total_bounds. rewrite Hs. apply Forall_forall. intros s Hin.
    apply list_elem_of_fmap in Hin as (k & -> & _). apply randint_value_3_7.
Qed.

Lemma total_sleep_bounds_witness :
  open_error flaky_env npy_path = None
  ∧ (6 ≤ total (sleeps (trace (snd (save_to_files flaky_env
                                      [page_url; down_url; page_url]
                                      (fresh ∅))))) ≤ 14)%Z.
Proof.
  split; [reflexivity|].
  destruct (total_sleep_bounds flaky_env [page_url; down_url; page_url]
              (fresh ∅) eq_refl) as (evs & Htr & Hb).
  rewrite Htr. exact Hb.
Defined.

(** ** The order of the rows *)

Lemma dict_set_fresh (d : dict) (k v : str) :
  k ∉ d.*1 → dict_set d k v = d ++ [(k, v)].
Proof.
  induction d as [|[k' v'] d IH]; intros Hk; [done|].
  change (((k', v') :: d).*1) with (k' :: d.*1) in Hk.
  apply not_elem_of_cons in Hk as [Hne Hk]. simpl.
  rewrite decide_False by done. by rewrite IH.
Qed.

Lemma rows_in_order_snoc E n0 (l : list str) (u : str) :
  rows_in_order E n0 (l ++ [u])
  = rows_in_order E n0 l
    ++ match saved_row E n0 (length l) u with Some r => [r] | None => [] end.
Proof.
  unfold rows_in_order. rewrite imap_app, omap_app. simpl.
  rewrite Nat.add_0_r. by destruct (saved_row E n0 (length l) u).
Qed.

Lemma rows_in_order_keys E n0 (l : list str) (u : str) :
  u ∈ (rows_in_order E n0 l).*1 → u ∈ l.
Proof.
  intros Hu. apply list_elem_of_fmap in Hu as ([u' f] & -> & Hin).
  apply list_elem_of_omap in Hin as (r & Hr & Hid). simpl in Hid. subst r.
  apply elem_of_lookup_imap in Hr as (i & y & Hrow & Hy).
  unfold saved_row in Hrow.
  destruct (http_get E (n0 + i) y) as [r|]; [|done].
  destruct (open_error E (webpage_file i)); [done|].
  destruct (encode_error (filtered_text (text_html r))); [done|].
  injection Hrow as <- _. by eapply list_elem_of_lookup_2.
Qed.

Lemma rows_in_order_encodable E n0 (l : list str) :
  (∀ u, u ∈ l → encode_error u = None) →
  Forall (fun item => encode_error item.1 = None
                      ∧ encode_error item.2 = None) (rows_in_order E n0 l).
Proof.
  intros Hl. apply Forall_forall. intros [u f] Hin.
  apply list_elem_of_omap in Hin as (r & Hr & Hid). simpl in Hid. subst r.
  apply elem_of_lookup_imap in Hr as (i & y & Hrow & Hy).
  unfold saved_row in Hrow.
  destruct (http_get E (n0 + i) y) as [r|]; [|done].
  destruct (open_error E (webpage_file i)); [done|].
  destruct (encode_error (filtered_text (text_html r))); [done|].
  injection Hrow as -> ->. split.
  - apply Hl. by eapply list_elem_of_lookup_2.
  - apply encode_error_None, webpage_file_encodable.
Qed.

Lemma NoDup_not_in_take (urls : list str) (k : nat) (u : str) :
  NoDup urls → urls !! k = Some u → u ∉ take k urls.
Proof.
  intros Hnd Hk Hin. rewrite <- (take_drop_middle urls k u Hk) in Hnd.
  apply NoDup_app in Hnd as (_ & Hdisj & _).
  apply (Hdisj u Hin). left.
Qed.

Lemma for_enumerate_rows (E : env) (urls : list str) (w : world) :
  NoDup urls →
  ∃ d' w', for_enumerate E 0 urls [] w = (Ok d', w')
           ∧ rows_inv E (nreq w) urls (length urls) d'.
Proof.
  intros Hnd.
  destruct (for_enumerate_rule E urls (nreq w)
              (fun k d _ => rows_inv E (nreq w) urls k d)) with
    (d := @nil (str * str)) (w := w) as (d' & w' & Hloop & _ & Hinv).
  - intros idx url d w1 e Hlook _ Hd Hget. unfold rows_inv in *.
    rewrite (take_S_r _ _ _ Hlook), rows_in_order_snoc.
    rewrite length_take_le by (apply lookup_lt_Some in Hlook; lia).
    unfold saved_row. by rewrite Hget, app_nil_r.
  - intros idx url d w1 resp Hlook _ Hd Hget Hopen Henc. unfold rows_inv in *.
    rewrite (take_S_r _ _ _ Hlook), rows_in_order_snoc.
    rewrite length_take_le by (apply lookup_lt_Some in Hlook; lia).
    unfold saved_row. rewrite Hget, Hopen, Henc, <- Hd.
    apply dict_set_fresh. intros Hin. rewrite Hd in Hin.
    apply rows_in_order_keys in Hin.
    by apply (NoDup_not_in_take urls idx url).
  - intros idx url d w1 resp e Hlook _ Hd Hget Hopen. unfold rows_inv in *.
    rewrite (take_S_r _ _ _ Hlook), rows_in_order_snoc.
    rewrite length_take_le by (apply lookup_lt_Some in Hlook; lia).
    unfold saved_row. by rewrite Hget, Hopen, app_nil_r.
  - intros idx url d w1 resp e Hlook _ Hd Hget Hopen Henc. unfold rows_inv in *.
    rewrite (take_S_r _ _ _ Hlook), rows_in_order_snoc.
    rewrite length_take_le by (apply lookup_lt_Some in Hlook; lia).
    unfold saved_row. by rewrite Hget, Hopen, Henc, app_nil_r.
  - reflexivity.
  - reflexivity.
  - by exists d', w'.
Qed.

(** X10. For a list without repeated URLs, all of which can be encoded,
    when the array and the mapping file can be opened, the mapping file
    holds the header and then the rows in list order: for each position
    whose page was fetched and whose text was written (the file opened, the
    text encoded), the URL and "data/webpage_<position>.txt". *)
Theorem rows_follow_list_order (E : env) (urls : list str) (w : world) :
  NoDup urls →
  (∀ u, u ∈ urls → encode_error u = None) →
  open_error E npy_path = None →
  open_error E csv_path = None →
  fs (snd (save_to_files E urls w)) !! csv_path
  = Some (CsvFile ([py "URL"; py "Document"]
                     :: map (fun item => [item.1; item.2])
                          (rows_in_order E (nreq w) urls))).
Proof.
  intros Hnd Henc Hnpy Hcsv.
  destruct (for_enumerate_rows E urls (written npy_path (NpyFile urls) w) Hnd)
    as (d & w1 & Hloop & Hd).
  unfold rows_inv in Hd. rewrite firstn_all in Hd. simpl in Hd.
  rewrite save_to_files_eq by done. unfold bind. rewrite Hloop.
  rewrite write_mapping_eq. simpl.
  rewrite finished_written;
    [|done|rewrite Hd; by apply rows_in_order_encodable].
  simpl. by rewrite lookup_insert_eq, Hd.
Qed.

Lemma rows_follow_list_order_witness :
  NoDup [page_url; down_url]
  ∧ fs (snd (save_to_files flaky_env [page_url; down_url] (fresh ∅)))
      !! csv_path
    = Some (CsvFile [[py "URL"; py "Document"];
                     [page_url; py "data/webpage_0.txt"]]).
Proof.
  assert (Hnd : NoDup [page_url; down_url]).
  { apply NoDup_cons. split.
    - intros H. apply elem_of_cons in H as [H|H]; [discriminate H|].
      by apply elem_of_nil in H.
    - apply NoDup_singleton. }
  split; [exact Hnd|].
  rewrite (rows_follow_list_order flaky_env [page_url; down_url] (fresh ∅)
             Hnd).
  - vm_compute. reflexivity.
  - intros u Hu. apply elem_of_cons in Hu as [->|Hu]; [reflexivity|].
    apply elem_of_cons in Hu as [->|Hu]; [reflexivity|].
    by apply elem_of_nil in Hu.
  - reflexivity.
  - reflexivity.
Defined.

(** X11. When the page at a position is fetched and its text file cannot be
    opened, the turn sends the one request, prints "Failed to write file:
    data/webpage_<idx>.txt, due to: <str(e)>" and pauses; the mapping and
    the files are as before the turn, the call goes on with the URL after
    it, and the file of that position is never touched. *)
Theorem failed_write_is_skipped (E : env) (before : list str) (url : str)
    (after : list str) (w : world) (resp : response) (e : exn) :
  open_error E npy_path = None →
  http_get E (nreq w + length before) url = Ok resp →
  open_error E (webpage_file (length before)) = Some e →
  let urls := before ++ url :: after in
  let idx := length before in
  ∃ d w1,
    for_enumerate E 0 before [] (written npy_path (NpyFile urls) w)
      = (Ok d, w1)
    ∧ loop_body E idx url d w1 = (Ok d, after_write_failed E idx url e w1)
    ∧ fs (after_write_failed E idx url e w1) = fs w1
    ∧ trace (after_write_failed E idx url e w1)
      = trace w1
          ++ [Requested url;
              Printed (py "Failed to write file: "
                         ++ (py "data/webpage_" ++ py (pretty idx)
                               ++ py ".txt")
                         ++ py ", due to: " ++ exn_str e);
              Slept (randint_value (entropy E (ndraw w1)) 3 7)]
    ∧ save_to_files E urls w
      = (let* m := for_enumerate E (S idx) after d in write_mapping E m)
          (after_write_failed E idx url e w1)
    ∧ fs (snd (save_to_files E urls w)) !! webpage_file idx
      = fs w !! webpage_file idx.
Proof.
  intros Hnpy Hget Hopen urls idx.
  set (w0 := written npy_path (NpyFile urls) w).
  destruct (for_enumerate_writes E before [] w0) as (d & w1 & Hloop & Hn & _).
  assert (Hget1 : http_get E (nreq w1) url = Ok resp) by (by rewrite Hn).
  assert (Hturn := loop_body_write_failed E idx url d w1 resp e Hget1 Hopen).
  exists d, w1. split; [done|]. split; [done|]. split; [done|].
  split; [apply trace_after_write_failed|]. split.
  - rewrite save_to_files_eq by done. fold w0. unfold urls.
    unfold bind at 1. rewrite for_enumerate_app. unfold bind at 1.
    rewrite Hloop. simpl. unfold bind at 1. fold idx.
    by rewrite Hturn.
  - destruct (save_to_files_run E urls w Hnpy)
      as (d' & w' & _ & _ & (evs & _ & _ & _ & _ & Hframe) & Hrun).
    rewrite Hrun. simpl.
    rewrite fs_finished_ne by apply webpage_file_not_csv.
    rewrite Hframe.
    + simpl. rewrite lookup_insert_ne; [done|].
      intros H. by apply (webpage_file_not_npy idx).
    + intros i u _ (_ & _ & Ho) Heq.
      apply webpage_file_inj in Heq. subst i. unfold idx in Ho. congruence.
Qed.

Lemma failed_write_is_skipped_witness :
  open_error readonly_env (webpage_file (length (@nil str)))
    = Some PermissionError
  ∧ fs (snd (save_to_files readonly_env [page_url; page_url] (fresh ∅)))
      !! py "data/webpage_0.txt" = None.
Proof.
  split; [reflexivity|].
  destruct (failed_write_is_skipped readonly_env [] page_url [page_url]
              (fresh ∅) sample_response PermissionError
              eq_refl eq_refl eq_refl)
    as (d & w1 & _ & _ & _ & _ & _ & Hfs).
  exact Hfs.
Defined.

(** ** Texts and rows that cannot be encoded *)

(** The error of the codec is the error at the first surrogate. *)
Lemma encode_error_from_Some (pos : nat) (s : str) (e : exn) :
  encode_error_from pos s = Some e →
  ∃ pre c rest,
    s = pre ++ c :: rest
    ∧ Forall (fun x => is_surrogate x = false) pre
    ∧ is_surrogate c = true
    ∧ e = UnicodeEncodeError (pos + length pre) c (surrogate_run rest).
Proof.
  revert pos. induction s as [|x s IH]; intros pos; simpl; [done|].
  destruct (is_surrogate x) eqn:Hx.
  - intros [= <-]. exists [], x, s. simpl. rewrite Nat.add_0_r.
    by repeat split.
  - intros H. destruct (IH _ H) as (pre & c & rest & -> & Hpre & Hc & ->).
    exists (x :: pre), c, rest. simpl.
    replace (pos + S (length pre)) with (S pos + length pre) by lia.
    repeat split; try done. by constructor.
Qed.

(** X12. When the page at a position is fetched and its file opened, and the
    text cannot be encoded as UTF-8 (it holds a surrogate), the write
    raises the codec's error for the first surrogate: the file is left
    empty, the turn prints "Failed to write file: data/webpage_<idx>.txt,
    due to: <str(e)>", adds nothing to the mapping and pauses; the call
    goes on with the URL after it, and the file is still empty at the
    end. *)
Theorem failed_encoding_leaves_empty_file (E : env) (before : list str)
    (url : str) (after : list str) (w : world) (resp : response) (e : exn) :
  open_error E npy_path = None →
  http_get E (nreq w + length before) url = Ok resp →
  open_error E (webpage_file (length before)) = None →
  encode_error (filtered_text (text_html resp)) = Some e →
  let urls := before ++ url :: after in
  let idx := length before in
  ∃ d w1,
    for_enumerate E 0 before [] (written npy_path (NpyFile urls) w)
      = (Ok d, w1)
    ∧ loop_body E idx url d w1 = (Ok d, after_encode_failed E idx url e w1)
    ∧ trace (after_encode_failed E idx url e w1)
      = trace w1
          ++ [Requested url;
              Partial (py "data/webpage_" ++ py (pretty idx) ++ py ".txt")
                (TextFile []);
              Printed (py "Failed to write file: "
                         ++ (py "data/webpage_" ++ py (pretty idx)
                               ++ py ".txt")
                         ++ py ", due to: " ++ exn_str e);
              Slept (randint_value (entropy E (ndraw w1)) 3 7)]
    ∧ save_to_files E urls w
      = (let* m := for_enumerate E (S idx) after d in write_mapping E m)
          (after_encode_failed E idx url e w1)
    ∧ fs (snd (save_to_files E urls w)) !! webpage_file idx
      = Some (TextFile [])
    ∧ ∃ pre c rest,
        filtered_text (text_html resp) = pre ++ c :: rest
        ∧ Forall (fun x => is_surrogate x = false) pre
        ∧ is_surrogate c = true
        ∧ e = UnicodeEncodeError (length pre) c (surrogate_run rest).
Proof.
  intros Hnpy Hget Hopen Henc urls idx.
  set (w0 := written npy_path (NpyFile urls) w).
  destruct (for_enumerate_writes E before [] w0) as (d & w1 & Hloop & Hn & _).
  assert (Hget1 : http_get E (nreq w1) url = Ok resp) by (by rewrite Hn).
  assert (Hturn := loop_body_encode_failed E idx url d w1 resp e
                     Hget1 Hopen Henc).
  exists d, w1. split; [done|]. split; [done|].
  split; [apply trace_after_encode_failed|]. split; [|split].
  - rewrite save_to_files_eq by done. fold w0. unfold urls.
    unfold bind at 1. rewrite for_enumerate_app. unfold bind at 1.
    rewrite Hloop. simpl. unfold bind at 1. fold idx.
    by rewrite Hturn.
  - destruct (save_to_files_run E urls w Hnpy)
      as (d' & w' & _ & _ & (evs & _ & _ & _ & Hspoiled & _) & Hrun).
    rewrite Hrun. simpl.
    rewrite fs_finished_ne by apply webpage_file_not_csv.
    assert (Hs : spoiled_at E (nreq w) urls idx url).
    { split; [unfold urls, idx; by rewrite list_lookup_middle|].
      split; [|done]. exists resp. split; [done|]. congruence. }
    apply (Hspoiled idx url); [|done].
    apply opened_at_lt with (E := E) (n0 := nreq w) (u := url).
    by apply spoiled_at_opened.
  - apply (encode_error_from_Some 0 _ e Henc).
Qed.

Lemma failed_encoding_leaves_empty_file_witness :
  encode_error (filtered_text surrogate_page)
    = Some (Exception "UnicodeEncodeError"
              (py "'utf-8' codec can't encode character '\udc80' in position 49: surrogates not allowed"))
  ∧ fs (snd (save_to_files surrogate_env [page_url] (fresh ∅)))
      !! py "data/webpage_0.txt"
    = Some (TextFile []).
Proof.
  split; [vm_compute; reflexivity|].
  destruct (failed_encoding_leaves_empty_file surrogate_env [] page_url []
              (fresh ∅) _ _ eq_refl eq_refl eq_refl eq_refl)
    as (d & w1 & _ & _ & _ & _ & Hfs & _).
  exact Hfs.
Defined.

Lemma writerows_all (rows kept : list (list str)) :
  writerows rows = (kept, None) →
  Forall (fun r => encode_error (csv_line r) = None) rows.
Proof.
  revert kept. induction rows as [|row rows IH]; intros kept; simpl;
    [constructor|].
  destruct (encode_error (csv_line row)) eqn:Hrow; [done|].
  destruct (writerows rows) as [kept' err] eqn:Hrest.
  intros [= <- ->]. constructor; [done|]. by eapply IH.
Qed.

Lemma for_enumerate_keys (E : env) (urls : list str) (w : world) :
  ∃ d' w', for_enumerate E 0 urls [] w = (Ok d', w')
           ∧ keys_inv E (nreq w) urls (length urls) d'.
Proof.
  destruct (for_enumerate_rule E urls (nreq w)
              (fun k d _ => keys_inv E (nreq w) urls k d)) with
    (d := @nil (str * str)) (w := w) as (d' & w' & Hloop & _ & Hinv).
  - intros idx url d w1 e Hlook _ Hd Hget i u t Hi Hs.
    apply (Hd i u t); [|done]. destruct (decide (i = idx)) as [->|]; [|lia].
    destruct Hs as (Hu & (r & Hr & _) & _).
    rewrite Hlook in Hu. injection Hu as <-. congruence.
  - intros idx url d w1 resp Hlook _ Hd Hget Hopen Henc i u t Hi Hs.
    rewrite dict_set_keys. destruct (decide (i = idx)) as [->|Hne].
    + destruct Hs as (Hu & _). rewrite Hlook in Hu. injection Hu as <-.
      destruct (decide (url ∈ d.*1)); [done|].
      apply elem_of_app. right. left.
    + assert (Hin : u ∈ d.*1) by (apply (Hd i u t); [lia | done]).
      destruct (decide (url ∈ d.*1)); [done|]. apply elem_of_app. by left.
  - intros idx url d w1 resp e Hlook _ Hd Hget Hopen i u t Hi Hs.
    apply (Hd i u t); [|done]. destruct (decide (i = idx)) as [->|]; [|lia].
    destruct Hs as (_ & _ & Ho & _). congruence.
  - intros idx url d w1 resp e Hlook _ Hd Hget Hopen Henc i u t Hi Hs.
    apply (Hd i u t); [|done]. destruct (decide (i = idx)) as [->|]; [|lia].
    destruct Hs as (Hu & (r & Hr & Ht) & _ & Hgood).
    rewrite Hlook in Hu. injection Hu as <-.
    assert (r = resp) as -> by congruence. subst t. congruence.
  - reflexivity.
  - intros i u t Hi. lia.
  - by exists d', w'.
Qed.

(** X13. When the mapping file can be opened and a URL that was saved cannot
    be encoded as UTF-8, the call still returns: the mapping file is left
    with the header and the rows before the first row that cannot be
    encoded, and the last act of the call is to print "Failed to write URL
    to file map, due to: <str(e)>" with the codec's error for that row. *)
Theorem mapping_encode_failure_is_reported (E : env) (urls : list str)
    (w : world) (i : nat) (u t : str) :
  open_error E npy_path = None →
  open_error E csv_path = None →
  saved_at E (nreq w) urls i u t →
  encode_error u ≠ None →
  ∃ w' d w1 kept row rest e evs,
    for_enumerate E 0 urls [] (written npy_path (NpyFile urls) w) = (Ok d, w1)
    ∧ save_to_files E urls w = (Ok tt, w')
    ∧ [py "URL"; py "Document"] :: map (fun item => [item.1; item.2]) d
      = kept ++ row :: rest
    ∧ Forall (fun r => encode_error (csv_line r) = None) kept
    ∧ encode_error (csv_line row) = Some e
    ∧ fs w' !! csv_path = Some (CsvFile kept)
    ∧ trace w' = trace w ++ evs
                   ++ [Partial csv_path (CsvFile kept);
                       Printed (py "Failed to write URL to file map, due to: "
                                  ++ exn_str e)].
Proof.
  intros Hnpy Hcsv Hs Hu.
  destruct (save_to_files_run E urls w Hnpy)
    as (d & w1 & Hloop & _ & (evs & Htr & _) & Hrun).
  destruct (for_enumerate_keys E urls (written npy_path (NpyFile urls) w))
    as (d' & w1' & Hloop' & Hkeys).
  rewrite Hloop in Hloop'. injection Hloop' as <- <-. simpl in Hkeys.
  assert (Hin : u ∈ d.*1).
  { apply (Hkeys i u t); [by eapply saved_at_lt | done]. }
  apply list_elem_of_fmap in Hin as ([u' f] & -> & Hin). simpl in Hu.
  destruct (writerows (csv_rows d)) as [kept [e|]] eqn:Hrows.
  - destruct (writerows_error _ _ _ Hrows) as (row & rest & Heq & Hkept & Hrow).
    assert (Hfin : finished E d w1
                   = log (Printed (map_failed e))
                       (partial csv_path (CsvFile kept) w1)).
    { unfold finished. by rewrite Hcsv, Hrows. }
    rewrite Hfin in Hrun.
    eexists _, d, w1, kept, row, rest, e,
      (Wrote npy_path (NpyFile urls) :: evs).
    split; [done|]. split; [exact Hrun|]. split; [exact Heq|].
    split; [done|]. split; [done|]. split.
    + simpl. by rewrite lookup_insert_eq.
    + simpl. rewrite Htr. simpl. by rewrite <- !app_assoc.
  - exfalso. apply writerows_all in Hrows. unfold csv_rows in Hrows.
    apply Forall_cons in Hrows as [_ Hrows].
    rewrite Forall_fmap, Forall_forall in Hrows.
    specialize (Hrows (u', f) Hin). simpl in Hrows.
    by apply csv_line_url_encodable in Hrows.
Qed.

Lemma mapping_encode_failure_is_reported_witness :
  encode_error odd_url ≠ None
  ∧ ∃ kept,
      fs (snd (save_to_files sample_env [page_url; odd_url; page_url]
                 (fresh ∅))) !! csv_path
        = Some (CsvFile kept)
      ∧ Forall (fun r => encode_error (csv_line r) = None) kept.
Proof.
  split; [discriminate|].
  destruct (mapping_encode_failure_is_reported sample_env
              [page_url; odd_url; page_url] (fresh ∅) 1 odd_url
              (filtered_text sample_page) eq_refl eq_refl)
    as (w' & d & w1 & kept & row & rest & e & evs
        & _ & Hrun & _ & Hkept & _ & Hfs & _).
  - split; [reflexivity|]. split; [|split; reflexivity].
    exists sample_response. split; reflexivity.
  - discriminate.
  - exists kept. rewrite Hrun. split; [exact Hfs | exact Hkept].
Defined.

(** A call on three URLs, the second of which cannot be encoded: its text
    file is written, its row and the row after it are not. *)
Example mapping_stops_at_odd_url :
  fs (snd (save_to_files sample_env [page_url; odd_url; down_url] (fresh ∅)))
    !! csv_path
  = Some (CsvFile [[py "URL"; py "Document"];
                   [page_url; py "data/webpage_0.txt"]]).
Proof. vm_compute. reflexivity. Qed.

(** The messages of the codec, as Python gives them. *)
Example encode_error_one_surrogate :
  encode_error (py "ab" ++ [55296%N] ++ py "cd")
  = Some (Exception "UnicodeEncodeError"
            (py "'utf-8' codec can't encode character '\ud800' in position 2: surrogates not allowed")).
Proof. vm_compute. reflexivity. Qed.

Example encode_error_run_of_surrogates :
  encode_error (py "ab" ++ [55296%N; 55297%N] ++ py "cd")
  = Some (Exception "UnicodeEncodeError"
            (py "'utf-8' codec can't encode characters in position 2-3: surrogates not allowed")).
Proof. vm_compute. reflexivity. Qed.

Example encode_error_in_quoted_row :
  encode_error
    (csv_line [py "http://a,b" ++ [34%N] ++ py "c" ++ [55296%N]; py "f"])
  = Some (Exception "UnicodeEncodeError"
            (py "'utf-8' codec can't encode character '\ud800' in position 14: surrogates not allowed")).
Proof. vm_compute. reflexivity. Qed.

Example astral_text_is_encodable :
  encode_error (py "ab" ++ [65536%N; 1114111%N] ++ py "cd") = None.
Proof. reflexivity. Qed.
